(** * Migration validator: a shallow embedding of scripts/validate_migration.py

    The development follows [DatabaseValidator]: the catalogue queries, the
    checksum sampler, the five checks, the orchestrator [run_all_validations]
    and the exit code computed by [main].  It goes on with the report, the
    resolution of the connection parameters, and the population script
    scripts/populate_source.py in [Module Populate].

    Conventions of the embedding.
    - A Python exception is a value [Raise msg], where [msg] is [str(e)];
      a call that returns is [Ok v].  [try_except] is [try ... except
      Exception as e].  Only exceptions that derive from [Exception] are
      modelled (no KeyboardInterrupt).
    - A connection is the table of its answers: one field per query the
      validator sends.  Answers do not change during a run: the theorems
      speak of runs in which every statement is answered as the table says.
      A psycopg2 connection without autocommit answers differently after a
      statement has failed on it; such a run is described by the table of
      the answers it really got.
    - A Python [set] of [str] is a [gset string]; the order in which the
      interpreter iterates over a set is the field [set_iter] of [Runtime],
      which also holds the library functions the script calls.  That order
      belongs to one interpreter process (it follows the hash seed);
      [reseed] gives the runtime of another process.
    - [print] is modelled in [print_report] only, as the list of the
      strings printed. *)

From Stdlib Require Import ZArith Ascii String List.
From stdpp Require Import base decidable option list gmap sets strings pretty.

Local Open Scope string_scope.
Local Open Scope list_scope.
Local Open Scope Z_scope.

(** ** Exceptions *)

Inductive result (A : Type) : Type :=
| Ok (a : A)
| Raise (msg : string).
Arguments Ok {A} a.
Arguments Raise {A} msg.

(** Sequencing: an exception raised by the first statement skips the rest.
    Written [x ← r; k] below. *)
Global Instance result_bind : MBind result := λ A B k r,
  match r with
  | Ok a => k a
  | Raise msg => Raise msg
  end.

(** [try: body except Exception as e: handler e] *)
Definition try_except {A : Type} (body : result A) (handler : string → result A)
  : result A :=
  match body with
  | Ok a => Ok a
  | Raise msg => handler msg
  end.

(** [for x in xs: s = body s x] with the loop variables threaded as [s]. *)
Fixpoint for_in {A S : Type} (xs : list A) (s : S) (body : S → A → result S)
  : result S :=
  match xs with
  | [] => Ok s
  | x :: xs' => s' ← body s x; for_in xs' s' body
  end.

(** ** Data *)

(** The dict built by [get_table_schema]. *)
Record Column : Type := mkColumn {
  col_name : string;
  col_type : string;
  col_max_length : option Z;
  col_nullable : string;
  col_default : option string
}.

(** The dict built by [get_constraints]. *)
Record Constraint : Type := mkConstraint {
  con_name : string;
  con_type : string;
  con_column : string
}.

(** The dict built by [get_indexes]. *)
Record IndexDef : Type := mkIndexDef {
  idx_name : string;
  idx_definition : string
}.

(** The two statements [get_data_checksum] composes with [sql.SQL(..).format]. *)
Inductive Query : Type :=
| SelectOrderByLimit (table pk_column : string) (limit : Z)
    (* SELECT * FROM {} ORDER BY {} LIMIT {} *)
| SelectLimit (table : string) (limit : Z).
    (* SELECT * FROM {} LIMIT {} *)

(** [source_value] and [target_value] of a result: [None] or a list of str. *)
Inductive Value : Type :=
| VNone
| VList (items : list string).

Record ValidationResult : Type := mkResult {
  check_name : string;
  passed : bool;
  source_value : Value;
  target_value : Value;
  message : string
}.

Global Instance Value_eq_dec : EqDecision Value.
Proof. solve_decision. Defined.
Global Instance ValidationResult_eq_dec : EqDecision ValidationResult.
Proof. solve_decision. Defined.
Global Instance Query_eq_dec : EqDecision Query.
Proof. solve_decision. Defined.

Definition check_mark : string := "✓".
Definition cross_mark : string := "✗".

(** What the script takes from the interpreter and its libraries. *)
Class Runtime : Type := {
  (* a fetched row of a user table *)
  Row : Type;
  (* str(rows) *)
  str_rows : list Row → string;
  (* hashlib.md5(s.encode()).hexdigest() *)
  md5_hexdigest : string → string;
  (* iteration order of a set of str: list(s), ', '.join(s) *)
  set_iter : gset string → list string;
  (* the text of a set of str inside an f-string *)
  repr_set : gset string → string;
  (* open(output_file, 'w') and json.dump of the report *)
  dump_report : list ValidationResult → string → result unit
}.

Section Validator.
Context `{RT : Runtime}.

(** A connection, as the answers to the statements the validator executes. *)
Record Conn : Type := mkConn {
  (* information_schema.tables, ORDER BY table_name: one name per row *)
  q_tables : result (list string);
  (* SELECT COUNT( * ) FROM table: fetchone()[0] *)
  q_count : string → result Z;
  (* information_schema.columns, ORDER BY ordinal_position *)
  q_columns :
    string → result (list (string * string * option Z * string * option string));
  (* table_constraints JOIN key_column_usage *)
  q_constraints : string → result (list (string * string * string));
  (* pg_indexes *)
  q_indexes : string → result (list (string * string));
  (* pg_index JOIN pg_attribute WHERE indisprimary: one attname per row *)
  q_primary_key : string → result (list string);
  (* the sampling statement *)
  q_select : Query → result (list Row);
  (* conn.close() *)
  q_close : result unit
}.

Definition get_tables (conn : Conn) : result (list string) :=
  q_tables conn.

Definition get_row_count (conn : Conn) (table : string) : result Z :=
  q_count conn table.

Definition get_table_schema (conn : Conn) (table : string) : result (list Column) :=
  rows ← q_columns conn table;
  Ok (map (λ row, match row with
                  | (r0, r1, r2, r3, r4) => mkColumn r0 r1 r2 r3 r4
                  end) rows).

Definition get_constraints (conn : Conn) (table : string)
  : result (list Constraint) :=
  rows ← q_constraints conn table;
  Ok (map (λ row, match row with
                  | (r0, r1, r2) => mkConstraint r0 r1 r2
                  end) rows).

Definition get_indexes (conn : Conn) (table : string) : result (list IndexDef) :=
  rows ← q_indexes conn table;
  Ok (map (λ row, mkIndexDef row.1 row.2) rows).

(** The statement chosen from [pk_result = cursor.fetchone()]. *)
Definition sample_query (pk_result : option string) (table : string) (limit : Z)
  : Query :=
  match pk_result with
  | Some pk_column => SelectOrderByLimit table pk_column limit
  | None => SelectLimit table limit
  end.

Definition get_data_checksum (conn : Conn) (table : string) (limit : Z)
  : result string :=
  pk_rows ← q_primary_key conn table;
  let pk_result := head pk_rows in
  let query := sample_query pk_result table limit in
  rows ← q_select conn query;
  let data_str := str_rows rows in
  Ok (md5_hexdigest data_str).

(** ** The five checks

    Each takes [self.results] and returns it with one result appended, or
    raises. *)

Definition missing_in_target (source_tables target_tables : gset string)
  : gset string := source_tables ∖ target_tables.

Definition extra_in_target (source_tables target_tables : gset string)
  : gset string := target_tables ∖ source_tables.

Definition existence_message (source_tables target_tables : gset string)
  : string :=
  let missing := missing_in_target source_tables target_tables in
  let extra := extra_in_target source_tables target_tables in
  if bool_decide (missing ≠ ∅) then
    "Missing tables in target: " +:+ String.concat ", " (set_iter missing)
  else if bool_decide (extra ≠ ∅) then
    "Extra tables in target (OK): " +:+ String.concat ", " (set_iter extra)
  else
    "All " +:+ pretty (size source_tables) +:+ " tables present in both databases".

Definition validate_table_existence (source_conn target_conn : Conn)
    (results : list ValidationResult) : result (list ValidationResult) :=
  source_list ← get_tables source_conn;
  let source_tables : gset string := list_to_set source_list in
  target_list ← get_tables target_conn;
  let target_tables : gset string := list_to_set target_list in
  let passed :=
    bool_decide (size (missing_in_target source_tables target_tables) = 0%nat) in
  let message := existence_message source_tables target_tables in
  Ok (results ++ [mkResult "Table Existence" passed
                    (VList (set_iter source_tables))
                    (VList (set_iter target_tables))
                    message]).

(** Loop variables of the per-table checks: [all_match] and [details]. *)
Definition LoopState : Type := (bool * list string)%type.

Definition row_counts_body (source_conn target_conn : Conn)
    (st : LoopState) (table : string) : result LoopState :=
  let '(all_match, details) := st in
  source_count ← get_row_count source_conn table;
  target_count ← try_except (get_row_count target_conn table) (λ _, Ok 0);
  let match_ := bool_decide (source_count = target_count) in
  let all_match := if negb match_ then false else all_match in
  let status := if match_ then check_mark else cross_mark in
  Ok (all_match,
      details ++ [status +:+ " " +:+ table +:+ ": " +:+ pretty source_count
                    +:+ " vs " +:+ pretty target_count]).

Definition validate_row_counts (source_conn target_conn : Conn)
    (results : list ValidationResult) : result (list ValidationResult) :=
  tables ← get_tables source_conn;
  st ← for_in tables (true, []) (row_counts_body source_conn target_conn);
  let '(all_match, details) := st in
  Ok (results ++ [mkResult "Row Counts" all_match (VList details) VNone
                    (if all_match then "All row counts match"
                     else "Row count mismatch detected")]).

(** [{col['name']: col['type'] for col in schema}]: a later column of the
    same name replaces an earlier one. *)
Definition column_types (schema : list Column) : gmap string string :=
  foldl (λ d col, <[col_name col := col_type col]> d) ∅ schema.

Definition schemas_body (source_conn target_conn : Conn)
    (st : LoopState) (table : string) : result LoopState :=
  let '(all_match, details) := st in
  source_schema ← get_table_schema source_conn table;
  target_schema ← try_except (get_table_schema target_conn table) (λ _, Ok []);
  let source_cols := column_types source_schema in
  let target_cols := column_types target_schema in
  if bool_decide (source_cols = target_cols) then
    Ok (all_match,
        details ++ [check_mark +:+ " " +:+ table +:+ ": Schema matches ("
                      +:+ pretty (size source_cols) +:+ " columns)"])
  else
    let diff_cols : gset string :=
      (dom source_cols ∖ dom target_cols) ∪ (dom target_cols ∖ dom source_cols) in
    Ok (false,
        details ++ [cross_mark +:+ " " +:+ table
                      +:+ ": Schema mismatch - diff columns: "
                      +:+ repr_set diff_cols]).

Definition validate_schemas (source_conn target_conn : Conn)
    (results : list ValidationResult) : result (list ValidationResult) :=
  tables ← get_tables source_conn;
  st ← for_in tables (true, []) (schemas_body source_conn target_conn);
  let '(all_match, details) := st in
  Ok (results ++ [mkResult "Schema Structure" all_match (VList details) VNone
                    (if all_match then "All schemas match"
                     else "Schema differences detected")]).

(** [[c for c in constraints if c['type'] == 'PRIMARY KEY']] *)
Definition primary_key_rows (constraints : list Constraint) : list Constraint :=
  filter (λ c, con_type c = "PRIMARY KEY") constraints.

Definition constraints_body (source_conn target_conn : Conn)
    (st : LoopState) (table : string) : result LoopState :=
  let '(all_match, details) := st in
  source_constraints ← get_constraints source_conn table;
  target_constraints ←
    try_except (get_constraints target_conn table) (λ _, Ok []);
  let source_pk := primary_key_rows source_constraints in
  let target_pk := primary_key_rows target_constraints in
  let pk_match := bool_decide (length source_pk = length target_pk) in
  if negb pk_match then
    Ok (false, details ++ [cross_mark +:+ " " +:+ table +:+ ": Primary key mismatch"])
  else
    Ok (all_match,
        details ++ [check_mark +:+ " " +:+ table +:+ ": Constraints present"]).

Definition validate_constraints (source_conn target_conn : Conn)
    (results : list ValidationResult) : result (list ValidationResult) :=
  tables ← get_tables source_conn;
  st ← for_in tables (true, []) (constraints_body source_conn target_conn);
  let '(all_match, details) := st in
  Ok (results ++ [mkResult "Constraints" all_match (VList details) VNone
                    (if all_match then "All constraints present"
                     else "Missing constraints detected")]).

Definition data_integrity_body (source_conn target_conn : Conn)
    (sample_size : Z) (st : LoopState) (table : string) : result LoopState :=
  let '(all_match, details) := st in
  try_except
    (source_checksum ← get_data_checksum source_conn table sample_size;
     target_checksum ← get_data_checksum target_conn table sample_size;
     let match_ := bool_decide (source_checksum = target_checksum) in
     let all_match := if negb match_ then false else all_match in
     let status := if match_ then check_mark else cross_mark in
     Ok (all_match,
         details ++ [status +:+ " " +:+ table +:+ ": "
                       +:+ substring 0 8 source_checksum +:+ "... vs "
                       +:+ substring 0 8 target_checksum +:+ "..."]))
    (λ e,
     Ok (false, details ++ [cross_mark +:+ " " +:+ table +:+ ": Error - " +:+ e])).

Definition validate_data_integrity (source_conn target_conn : Conn)
    (sample_size : Z) (results : list ValidationResult)
  : result (list ValidationResult) :=
  tables ← get_tables source_conn;
  st ← for_in tables (true, [])
         (data_integrity_body source_conn target_conn sample_size);
  let '(all_match, details) := st in
  Ok (results ++ [mkResult "Data Integrity" all_match (VList details) VNone
                    (if all_match then "Data integrity verified"
                     else "Data integrity issues detected")]).

(** ** The orchestrator *)

Definition validations (source_conn target_conn : Conn)
  : list (string * (list ValidationResult → result (list ValidationResult))) :=
  [ ("Table Existence", validate_table_existence source_conn target_conn);
    ("Row Counts", validate_row_counts source_conn target_conn);
    ("Schema Structure", validate_schemas source_conn target_conn);
    ("Constraints", validate_constraints source_conn target_conn);
    ("Data Integrity", validate_data_integrity source_conn target_conn 1000) ].

Definition error_result (name e : string) : ValidationResult :=
  mkResult name false VNone VNone ("Error: " +:+ e).

Definition run_all_validations (source_conn target_conn : Conn)
    (results : list ValidationResult) : result (list ValidationResult) :=
  for_in (validations source_conn target_conn) results
    (λ results nf,
       let '(name, validation_func) := nf in
       try_except (validation_func results)
         (λ e, Ok (results ++ [error_result name e]))).

Definition export_report (results : list ValidationResult) (output_file : string)
  : result unit :=
  dump_report results output_file.

(** ** The end of [main] *)

(** How the process ends: [sys.exit(code)], or an exception nobody catches. *)
Inductive Exit : Type :=
| SystemExit (code : Z)
| Uncaught (msg : string).

Definition exit_status (e : Exit) : Z :=
  match e with
  | SystemExit code => code
  | Uncaught _ => 1
  end.

(** [try: body finally: finalizer]: an exception of the finalizer replaces
    the outcome of the body. *)
Definition try_finally (body : Exit) (finalizer : result unit) : Exit :=
  match finalizer with
  | Ok _ => body
  | Raise e => Uncaught e
  end.

(** From the two [connect_to_database] calls on; [None] is a failed
    connection. *)
Definition main (source_conn target_conn : option Conn)
    (output_file : option string) : Exit :=
  match source_conn with
  | None => SystemExit 1
  | Some source_conn =>
    match target_conn with
    | None =>
      match q_close source_conn with
      | Ok _ => SystemExit 1
      | Raise e => Uncaught e
      end
    | Some target_conn =>
      try_finally
        (match
           results ← run_all_validations source_conn target_conn [];
           _ ← match output_file with
               | Some f =>
                 if bool_decide (f ≠ "") then export_report results f else Ok ()
               | None => Ok ()
               end;
           let all_passed := forallb passed results in
           Ok (if all_passed then 0 else 1)
         with
         | Ok code => SystemExit code
         | Raise e => Uncaught e
         end)
        (_ ← q_close source_conn; q_close target_conn)
    end
  end.

End Validator.

(** ** Reading a loop body

    What one iteration of a per-table loop contributes, read off the body run
    on the initial loop variables: the table's verdict and its detail line. *)

Definition verdict (body : LoopState → string → result LoopState)
    (table : string) : bool :=
  match body (true, []) table with
  | Ok (ok, _) => ok
  | Raise _ => false
  end.

Definition detail (body : LoopState → string → result LoopState)
    (table : string) : string :=
  match body (true, []) table with
  | Ok (_, line :: _) => line
  | _ => ""
  end.

(** The iteration for [table] returns: it appends one line and clears
    [all_match] when the table does not match. *)
Definition one_line (body : LoopState → string → result LoopState)
    (table : string) : Prop :=
  ∀ all_match details,
    body (all_match, details) table
    = Ok (if verdict body table then all_match else false,
          details ++ [detail body table]).

(** The iteration for [table] raises [e]. *)
Definition raises (body : LoopState → string → result LoopState)
    (table e : string) : Prop :=
  ∀ st, body st table = Raise e.

(** What the schema comparison keeps of a column. *)
Definition name_and_type (c : Column) : string * string :=
  (col_name c, col_type c).

(** A check that appends exactly one result named [name], or raises, and
    does so whatever [self.results] holds. *)
Definition one_result (name : string)
    (f : list ValidationResult → result (list ValidationResult)) : Prop :=
  (∃ e, ∀ rs, f rs = Raise e)
  ∨ (∃ r, check_name r = name ∧ ∀ rs, f rs = Ok (rs ++ [r])).

(** ** Example databases *)

(** A runtime for the examples: rows are lists of integers, the digest is a
    stand-in that keeps its input, sets are iterated in the order of
    [elements]. *)
Definition demo_runtime : Runtime := {|
  Row := list Z;
  str_rows := λ rows, String.concat ";" (map (λ r, String.concat "," (map pretty r)) rows);
  md5_hexdigest := λ s, s;
  set_iter := elements;
  repr_set := λ s,
    match elements s with
    | [] => "set()"
    | names =>
      "{" +:+ String.concat ", " (map (λ n, "'" +:+ n +:+ "'") names) +:+ "}"
    end;
  dump_report := λ _ _, Ok ()
|}.

Definition demo_rows (q : Query) : list (@Row demo_runtime) :=
  match q with
  | SelectOrderByLimit _ _ _ => [[1; 10]; [2; 20]]
  | SelectLimit _ _ => [[2; 20]; [1; 10]]
  end.

(** Two tables, [orders] with a primary key [id] and [audit] without. *)
Definition demo_source : @Conn demo_runtime := {|
  q_tables := Ok ["audit"; "orders"];
  q_count := λ t, Ok (if bool_decide (t = "orders") then 2 else 0);
  q_columns := λ t,
    Ok (if bool_decide (t = "orders")
        then [("id", "integer", None, "NO", None);
              ("total", "numeric", None, "YES", None)]
        else [("note", "text", None, "YES", None)]);
  q_constraints := λ t,
    Ok (if bool_decide (t = "orders")
        then [("orders_pkey", "PRIMARY KEY", "id")] else []);
  q_indexes := λ _, Ok [];
  q_primary_key := λ t, Ok (if bool_decide (t = "orders") then ["id"] else []);
  q_select := λ q, Ok (demo_rows q);
  q_close := Ok ()
|}.

(** [conn] with another list of tables. *)
Definition with_tables (conn : @Conn demo_runtime) (tables : list string)
  : @Conn demo_runtime := {|
  q_tables := Ok tables;
  q_count := q_count conn;
  q_columns := q_columns conn;
  q_constraints := q_constraints conn;
  q_indexes := q_indexes conn;
  q_primary_key := q_primary_key conn;
  q_select := q_select conn;
  q_close := q_close conn
|}.

(** What the report shows of a check: its verdict and its message. *)
Definition verdict_and_message (r : ValidationResult) : bool * string :=
  (passed r, message r).

(** The same database after [audit] was locked away: counting its rows and
    reading its primary key raise. *)
Definition demo_locked : @Conn demo_runtime := {|
  q_tables := Ok ["audit"; "orders"];
  q_count := λ t,
    if bool_decide (t = "audit") then Raise "permission denied for table audit"
    else Ok 2;
  q_columns := q_columns demo_source;
  q_constraints := q_constraints demo_source;
  q_indexes := λ _, Ok [];
  q_primary_key := λ t,
    if bool_decide (t = "audit") then Raise "permission denied for table audit"
    else Ok ["id"];
  q_select := λ q, Ok (demo_rows q);
  q_close := Ok ()
|}.

(** A replica that lacks [audit] and holds a table [staging] of its own. *)
Definition demo_partial : @Conn demo_runtime := {|
  q_tables := Ok ["orders"; "staging"];
  q_count := λ t,
    if bool_decide (t = "orders") then Ok 2
    else Raise "relation does not exist";
  q_columns := λ t,
    Ok (if bool_decide (t = "orders")
        then [("id", "integer", None, "YES", Some "0");
              ("total", "numeric", Some 12, "NO", None)]
        else []);
  q_constraints := λ t,
    if bool_decide (t = "orders")
    then Ok [("orders_pkey", "PRIMARY KEY", "id"); ("orders_total", "CHECK", "total")]
    else Raise "relation does not exist";
  q_indexes := λ _, Ok [];
  q_primary_key := λ t,
    if bool_decide (t = "orders") then Ok ["id"]
    else Raise "relation does not exist";
  q_select := λ q, Ok (demo_rows q);
  q_close := Ok ()
|}.

(** A database whose only table [order_items] has the composite primary key
    [(order_id, product_id)]. *)
Definition demo_composite : @Conn demo_runtime := {|
  q_tables := Ok ["order_items"];
  q_count := λ _, Ok 2;
  q_columns := λ _,
    Ok [("order_id", "integer", None, "NO", None);
        ("product_id", "integer", None, "NO", None)];
  q_constraints := λ _,
    Ok [("order_items_pkey", "PRIMARY KEY", "order_id");
        ("order_items_pkey", "PRIMARY KEY", "product_id")];
  q_indexes := λ _, Ok [];
  q_primary_key := λ _, Ok ["order_id"; "product_id"];
  q_select := λ q, Ok (demo_rows q);
  q_close := Ok ()
|}.


(** ** The report

    [print_report] and the dict that [export_report] hands to [json.dump].
    [now] is [datetime.now().isoformat()]. *)

(** [s * n] *)
Fixpoint repeat_string (s : string) (n : nat) : string :=
  match n with
  | O => ""
  | S n' => s +:+ repeat_string s n'
  end.

Definition newline : string := String "010"%char "".

(** [sum(1 for r in results if r.passed)] *)
Definition passed_count (results : list ValidationResult) : nat :=
  sum_list (map (λ _, 1%nat) (filter (λ r, passed r = true) results)).

(** [sum(1 for r in results if not r.passed)] *)
Definition failed_count (results : list ValidationResult) : nat :=
  sum_list (map (λ _, 1%nat) (filter (λ r, passed r = false) results)).

(** The lines printed for one result. *)
Definition print_result (result : ValidationResult) : list string :=
  let status := if passed result then "✓ PASSED" else "✗ FAILED" in
  [newline +:+ status +:+ ": " +:+ check_name result;
   "  Message: " +:+ message result]
  ++ match source_value result with
     | VList items => map (λ item, "    " +:+ item) items
     | VNone => []
     end.

(** The strings [print_report] prints, one per call of [print]. *)
Definition print_report (now : string) (results : list ValidationResult)
  : list string :=
  [newline +:+ repeat_string "=" 60;
   "MIGRATION VALIDATION REPORT";
   repeat_string "=" 60;
   "Timestamp: " +:+ now;
   repeat_string "=" 60]
  ++ (let passed_count := passed_count results in
      let total_count := length results in
      flat_map print_result results
      ++ [newline +:+ repeat_string "=" 60;
          "SUMMARY: " +:+ pretty passed_count +:+ "/" +:+ pretty total_count
            +:+ " checks passed";
          if bool_decide (passed_count = total_count)
          then "✓ MIGRATION VALIDATED SUCCESSFULLY"
          else "✗ MIGRATION VALIDATION FAILED";
          repeat_string "=" 60]).

(** An element of ['results'] in the exported report. *)
Record ReportEntry : Type := mkReportEntry {
  entry_check_name : string;
  entry_passed : bool;
  entry_message : string
}.

(** The exported report. *)
Record Report : Type := mkReport {
  report_timestamp : string;
  summary_total_checks : nat;
  summary_passed : nat;
  summary_failed : nat;
  report_results : list ReportEntry
}.

(** The dict built at the start of [export_report]. *)
Definition report_dict (now : string) (results : list ValidationResult)
  : Report :=
  mkReport now
    (length results)
    (passed_count results)
    (failed_count results)
    (map (λ r, mkReportEntry (check_name r) (passed r) (message r)) results).

(** ** Connections that differ in one answer *)

Section Variants.
Context `{RT : Runtime}.

Definition set_tables (conn : Conn) (tables : result (list string)) : Conn :=
  mkConn tables (q_count conn) (q_columns conn) (q_constraints conn)
    (q_indexes conn) (q_primary_key conn) (q_select conn) (q_close conn).

Definition set_indexes (conn : Conn)
    (indexes : string → result (list (string * string))) : Conn :=
  mkConn (q_tables conn) (q_count conn) (q_columns conn) (q_constraints conn)
    indexes (q_primary_key conn) (q_select conn) (q_close conn).

Definition set_count (conn : Conn) (count : string → result Z) : Conn :=
  mkConn (q_tables conn) count (q_columns conn) (q_constraints conn)
    (q_indexes conn) (q_primary_key conn) (q_select conn) (q_close conn).

End Variants.

(** ** Values read from Terraform

    What [json.loads] returns.  The members of a dict are kept in insertion
    order; their keys are distinct. *)

#[local] Unset Elimination Schemes.
Inductive json : Type :=
| JNull
| JBool (b : bool)
| JInt (n : Z)
| JFloat (text : string)
| JStr (s : string)
| JList (items : list json)
| JDict (members : list (string * json)).
#[local] Set Elimination Schemes.

Definition type_name (v : json) : string :=
  match v with
  | JNull => "NoneType"
  | JBool _ => "bool"
  | JInt _ => "int"
  | JFloat _ => "float"
  | JStr _ => "str"
  | JList _ => "list"
  | JDict _ => "dict"
  end.

Fixpoint dict_lookup (members : list (string * json)) (key : string)
  : option json :=
  match members with
  | [] => None
  | (k, v) :: rest => if bool_decide (k = key) then Some v else dict_lookup rest key
  end.

(** [v.get(key, default)]: an AttributeError unless [v] is a dict. *)
Definition py_get (v : json) (key : string) (default_value : json) : result json :=
  match v with
  | JDict members => Ok (default default_value (dict_lookup members key))
  | _ => Raise ("'" +:+ type_name v +:+ "' object has no attribute 'get'")
  end.

(** The loop of [{k: v.get("value") for k, v in outputs.items()}]. *)
Fixpoint output_values_of (members : list (string * json))
  : result (list (string * json)) :=
  match members with
  | [] => Ok []
  | (k, v) :: rest =>
    x ← py_get v "value" JNull;
    xs ← output_values_of rest;
    Ok ((k, x) :: xs)
  end.

Definition output_values (outputs : json) : result (list (string * json)) :=
  match outputs with
  | JDict members => output_values_of members
  | _ => Raise ("'" +:+ type_name outputs +:+ "' object has no attribute 'items'")
  end.

(** How [subprocess.run(["terraform", "output", "-json"], ..., check=True)]
    followed by [json.loads(result.stdout)] ends. *)
Inductive TerraformRun : Type :=
| TfCalledProcessError (e : string)
| TfJSONDecodeError (e : string)
| TfOtherError (e : string)
    (* e.g. FileNotFoundError: no terraform binary, no such directory *)
| TfParsed (outputs : json).

(** Truth value of an optional str: [None] and [''] are false. *)
Definition truthy (s : option string) : bool :=
  match s with
  | Some s => bool_decide (s ≠ "")
  | None => false
  end.

(** [a or b] *)
Definition py_or (a b : option string) : option string :=
  if truthy a then a else b.

Definition opt_json (s : option string) : json :=
  match s with
  | Some s => JStr s
  | None => JNull
  end.

(** What is handed to [psycopg2.connect], the password apart. *)
Record ConnectionInfo : Type := mkConnectionInfo {
  ci_host : json;
  ci_port : json;
  ci_database : json;
  ci_username : json
}.

(** ** The validator's command line *)

Record Args : Type := mkArgs {
  arg_source_host : option string;
  arg_source_port : Z;
  arg_source_database : string;
  arg_source_username : string;
  arg_source_password : option string;
  arg_target_host : option string;
  arg_target_port : Z;
  arg_target_database : string;
  arg_target_username : string;
  arg_target_password : option string;
  arg_terraform_dir : string;
  arg_use_terraform : bool;
  arg_output_file : option string
}.

(** The validator's [get_terraform_outputs]: the two expected failures give
    the empty dict. *)
Definition get_terraform_outputs (tf : TerraformRun)
  : result (list (string * json)) :=
  match tf with
  | TfCalledProcessError _ => Ok []
  | TfJSONDecodeError _ => Ok []
  | TfOtherError e => Raise e
  | TfParsed outputs => output_values outputs
  end.

Definition source_flags (args : Args) : ConnectionInfo :=
  mkConnectionInfo (opt_json (arg_source_host args)) (JInt (arg_source_port args))
    (JStr (arg_source_database args)) (JStr (arg_source_username args)).

Definition target_flags (args : Args) : ConnectionInfo :=
  mkConnectionInfo (opt_json (arg_target_host args)) (JInt (arg_target_port args))
    (JStr (arg_target_database args)) (JStr (arg_target_username args)).

(** [info.get(key, flag)] for the four keys. *)
Definition overlay (info : json) (flags : ConnectionInfo) : result ConnectionInfo :=
  host ← py_get info "host" (ci_host flags);
  port ← py_get info "port" (ci_port flags);
  database ← py_get info "database" (ci_database flags);
  username ← py_get info "username" (ci_username flags);
  Ok (mkConnectionInfo host port database username).

(** "Get connection info from Terraform if requested" in [main]. *)
Definition resolve_connection_info (args : Args) (tf : TerraformRun)
  : result (ConnectionInfo * ConnectionInfo) :=
  if arg_use_terraform args
     || (negb (truthy (arg_source_host args))
         && negb (truthy (arg_target_host args)))
  then
    outputs ← get_terraform_outputs tf;
    match outputs with
    | _ :: _ =>
      conn_info ← py_get (JDict outputs) "connection_info" (JDict []);
      source_info ← py_get conn_info "source" (JDict []);
      target_info ← py_get conn_info "target" (JDict []);
      source ← overlay source_info (source_flags args);
      target ← overlay target_info (target_flags args);
      Ok (source, target)
    | [] => Ok (source_flags args, target_flags args)
    end
  else Ok (source_flags args, target_flags args).

(** "Get passwords" in [main].  [env_source] and [env_target] are the two
    environment variables, [input] is the answer to the prompt. *)
Definition resolve_passwords (args : Args) (env_source env_target : option string)
    (input : result string) : result (string * string) :=
  let source_password := py_or (arg_source_password args) env_source in
  let target_password := py_or (arg_target_password args) env_target in
  source_password ←
    (if negb (truthy source_password) then input
     else Ok (default "" source_password));
  let target_password :=
    if negb (truthy target_password) then source_password
    else default "" target_password in
  Ok (source_password, target_password).

Definition is_dict (v : json) : Prop := ∃ members, v = JDict members.

(** Terraform is asked: [--use-terraform], or no host flag at all. *)
Definition consults_terraform (args : Args) : bool :=
  arg_use_terraform args
  || (negb (truthy (arg_source_host args))
      && negb (truthy (arg_target_host args))).

(** ** The population script, scripts/populate_source.py *)

Module Populate.

(** What the script does to the outside, in order. *)
Inductive Event : Type :=
| Terraform
| Prompt
| Connect
| ReadFile (path : string)
| Execute (sql_content : string)
| Count (table : string)
| CursorClose
| Close.

(** How a call ends: it returns, calls [sys.exit], or raises. *)
Inductive Ending (A : Type) : Type :=
| Returns (a : A)
| Exits (code : Z)
| Raises (msg : string).
Arguments Returns {A} a.
Arguments Exits {A} code.
Arguments Raises {A} msg.

Record Run (A : Type) : Type := mkRun {
  events : list Event;
  ending : Ending A
}.
Arguments mkRun {A} events ending.
Arguments events {A} r.
Arguments ending {A} r.

Global Instance run_bind : MBind Run := λ A B k r,
  match ending r with
  | Returns a => mkRun (events r ++ events (k a)) (ending (k a))
  | Exits code => mkRun (events r) (Exits code)
  | Raises msg => mkRun (events r) (Raises msg)
  end.

Definition ret {A : Type} (a : A) : Run A := mkRun [] (Returns a).
Definition emit (e : Event) : Run unit := mkRun [e] (Returns ()).
Definition sys_exit {A : Type} (code : Z) : Run A := mkRun [] (Exits code).
Definition lift {A : Type} (r : result A) : Run A :=
  match r with
  | Ok a => mkRun [] (Returns a)
  | Raise msg => mkRun [] (Raises msg)
  end.

(** [try: body finally: finalizer] *)
Definition finally {A : Type} (body : Run A) (finalizer : Run unit) : Run A :=
  mkRun (events body ++ events finalizer)
    (match ending finalizer with
     | Returns _ => ending body
     | Exits code => Exits code
     | Raises msg => Raises msg
     end).

Fixpoint for_run {A S : Type} (xs : list A) (s : S) (body : S → A → Run S)
  : Run S :=
  match xs with
  | [] => ret s
  | x :: xs' => s' ← body s x; for_run xs' s' body
  end.

(** The exit status of the process. *)
Definition status {A : Type} (r : Run A) : Z :=
  match ending r with
  | Returns _ => 0
  | Exits code => code
  | Raises _ => 1
  end.

(** An open connection, as the answers it gives. *)
Record Database : Type := mkDatabase {
  db_execute : string → result unit;
  db_count : string → result Z;
  db_close : result unit
}.

(** Everything outside the script. *)
Record World : Type := mkWorld {
  w_terraform : TerraformRun;
  (* os.environ.get('DB_PASSWORD') *)
  w_env_password : option string;
  (* the answer to input(...) *)
  w_input : result string;
  (* script_dir / 'setup_source_data.sql' *)
  w_default_sql_file : string;
  (* Path(p).exists() *)
  w_exists : string → bool;
  (* open(p).read() *)
  w_read : string → result string;
  (* psycopg2.connect: None when it raises psycopg2.Error *)
  w_connect : ConnectionInfo → string → option Database
}.

Record Args : Type := mkArgs {
  arg_host : option string;
  arg_port : Z;
  arg_database : string;
  arg_username : string;
  arg_password : option string;
  arg_sql_file : option string;
  arg_terraform_dir : string;
  arg_use_terraform : bool
}.

(** This script's [get_terraform_outputs]: the two expected failures end the
    process. *)
Definition get_terraform_outputs (tf : TerraformRun)
  : Run (list (string * json)) :=
  _ ← emit Terraform;
  match tf with
  | TfCalledProcessError _ => sys_exit 1
  | TfJSONDecodeError _ => sys_exit 1
  | TfOtherError e => lift (Raise e)
  | TfParsed outputs => lift (output_values outputs)
  end.

Definition connect_to_database (w : World) (info : ConnectionInfo)
    (password : string) : Run Database :=
  _ ← emit Connect;
  match w_connect w info password with
  | Some conn => ret conn
  | None => sys_exit 1
  end.

Definition execute_sql_file (w : World) (conn : Database) (sql_file : string)
  : Run unit :=
  sql_content ← (_ ← emit (ReadFile sql_file); lift (w_read w sql_file));
  finally
    (_ ← emit (Execute sql_content); lift (db_execute conn sql_content))
    (emit CursorClose).

Definition tables : list string :=
  ["categories"; "customers"; "products"; "inventory"; "orders"; "order_items"].

(** One turn of the loop of [verify_data_loaded]. *)
Definition count_body (conn : Database) (counts : gmap string Z)
    (table : string) : Run (gmap string Z) :=
  count ← (_ ← emit (Count table); lift (db_count conn table));
  ret (<[table := count]> counts).

Definition verify_data_loaded (conn : Database) : Run (gmap string Z) :=
  counts ← for_run tables (∅ : gmap string Z) (count_body conn);
  _ ← emit CursorClose;
  ret counts.

(** [args.password or os.environ.get('DB_PASSWORD')], then the prompt. *)
Definition get_password (args : Args) (w : World) : Run string :=
  let password := py_or (arg_password args) (w_env_password w) in
  if negb (truthy password) then (_ ← emit Prompt; lift (w_input w))
  else ret (default "" password).

Definition flags (args : Args) : ConnectionInfo :=
  mkConnectionInfo (opt_json (arg_host args)) (JInt (arg_port args))
    (JStr (arg_database args)) (JStr (arg_username args)).

(** "Get connection info" in [main]. *)
Definition get_connection_info (args : Args) (w : World)
  : Run (ConnectionInfo * string) :=
  if arg_use_terraform args
     || (negb (truthy (arg_host args)) && negb (truthy (arg_password args)))
  then
    outputs ← get_terraform_outputs (w_terraform w);
    connection_info ←
      lift (conn_info ← py_get (JDict outputs) "connection_info" (JDict []);
            py_get conn_info "source" (JDict []));
    info ← lift (overlay connection_info (flags args));
    password ← get_password args w;
    ret (info, password)
  else
    password ← get_password args w;
    ret (flags args, password).

(** [args.sql_file or (script_dir / 'setup_source_data.sql')] *)
Definition sql_file_path (args : Args) (w : World) : string :=
  if truthy (arg_sql_file args) then default "" (arg_sql_file args)
  else w_default_sql_file w.

(** The body of the [try] in [main]. *)
Definition load (w : World) (conn : Database) (sql_file : string) : Run unit :=
  _ ← execute_sql_file w conn sql_file;
  _ ← verify_data_loaded conn;
  ret ().

Definition main (args : Args) (w : World) : Run unit :=
  config ← get_connection_info args w;
  let '(info, password) := config in
  let sql_file := sql_file_path args w in
  if negb (w_exists w sql_file) then sys_exit 1
  else
    conn ← connect_to_database w info password;
    _ ← finally (load w conn sql_file) (_ ← emit Close; lift (db_close conn));
    ret ().

(** An event of the set-up, before any connection. *)
Definition setup_event (ev : Event) : Prop :=
  ev = Terraform ∨ ev = Prompt.

(** An event of the load, on the open connection. *)
Definition load_event (ev : Event) : Prop :=
  match ev with
  | ReadFile _ | Execute _ | Count _ | CursorClose => True
  | Terraform | Prompt | Connect | Close => False
  end.

(** Terraform is asked: [--use-terraform], or neither host nor password. *)
Definition consults_terraform (args : Args) : bool :=
  arg_use_terraform args
  || (negb (truthy (arg_host args)) && negb (truthy (arg_password args))).

End Populate.

(** Another process: sets are iterated in the opposite order. *)
Definition demo_reversed (s : gset string) : list string :=
  reverse (elements s).

Definition demo_reversed_repr (s : gset string) : string :=
  match demo_reversed s with
  | [] => "set()"
  | names =>
    "{" +:+ String.concat ", " (map (λ n, "'" +:+ n +:+ "'") names) +:+ "}"
  end.

(** ** Example arguments and worlds *)

(** Terraform outputs with a host and a port for the source and a host for
    the target. *)
Definition demo_outputs : json :=
  JDict [("connection_info",
          JDict [("value",
                  JDict [("source", JDict [("host", JStr "src.example");
                                           ("port", JInt 6543)]);
                         ("target", JDict [("host", JStr "tgt.example")])])])].

(** No host flag: Terraform is asked. *)
Definition demo_args : Args :=
  mkArgs None 5432 "ecommerce" "admin" None
         None 5432 "ecommerce" "admin" None
         "../terraform" false None.

(** A database that runs any SQL and holds three rows per table. *)
Definition demo_database : Populate.Database :=
  Populate.mkDatabase (λ _, Ok ()) (λ _, Ok 3) (Ok ()).

Definition demo_world (sql_file_exists : bool) : Populate.World :=
  Populate.mkWorld (TfCalledProcessError "exit status 1") None (Ok "secret")
    "setup_source_data.sql" (λ _, sql_file_exists) (λ _, Ok "INSERT ...")
    (λ _ _, Some demo_database).

(** Host and password given: Terraform is not asked. *)
Definition demo_populate_args : Populate.Args :=
  Populate.mkArgs (Some "src.example") 5432 "ecommerce" "admin" (Some "secret")
    None "../terraform" false.

(** ** Counting PRIMARY KEY rows directly

    The number of rows of kind PRIMARY KEY in a list of constraint rows,
    counted row by row; to be compared with [length (primary_key_rows l)]. *)
Fixpoint spec_primary_key_row_count (constraints : list Constraint) : nat :=
  match constraints with
  | [] => 0
  | c :: rest =>
    ((if String.eqb (con_type c) "PRIMARY KEY" then 1 else 0)
     + spec_primary_key_row_count rest)%nat
  end.

(** ** Another interpreter process

    The same libraries with another order of iteration over sets, and the
    same connection seen from that process. *)
Definition reseed (RT : Runtime) (iter : gset string → list string)
    (repr : gset string → string) : Runtime := {|
  Row := @Row RT;
  str_rows := @str_rows RT;
  md5_hexdigest := @md5_hexdigest RT;
  set_iter := iter;
  repr_set := repr;
  dump_report := @dump_report RT
|}.

Definition reconnect {RT : Runtime} (iter : gset string → list string)
    (repr : gset string → string) (conn : @Conn RT)
  : @Conn (reseed RT iter repr) :=
  @mkConn (reseed RT iter repr)
    (q_tables conn) (q_count conn) (q_columns conn) (q_constraints conn)
    (q_indexes conn) (q_primary_key conn) (q_select conn) (q_close conn).

(** A set is iterated over element by element, each one once. *)
Definition each_once (iter : gset string → list string) : Prop :=
  ∀ s, iter s ≡ₚ elements s.

(** Two checks, run in two processes, end alike: both raise the same
    exception, or both append one result of the same name and verdict, the
    two results related by [R]. *)
Definition agree (name : string)
    (f f' : list ValidationResult → result (list ValidationResult))
    (R : ValidationResult → ValidationResult → Prop) : Prop :=
  (∃ e, (∀ rs, f rs = Raise e) ∧ (∀ rs, f' rs = Raise e))
  ∨ (∃ r r',
       check_name r = name ∧ check_name r' = name
       ∧ (∀ rs, f rs = Ok (rs ++ [r]))
       ∧ (∀ rs, f' rs = Ok (rs ++ [r']))
       ∧ passed r' = passed r
       ∧ R r r').

(** Two loops ended alike: the same exception, or the same [all_match]. *)
Definition loops_alike (r r' : result LoopState) : Prop :=
  match r, r' with
  | Ok (all_match, _), Ok (all_match', _) => all_match' = all_match
  | Raise e, Raise e' => e' = e
  | _, _ => False
  end.

(** * Properties *)

Section Properties.
Context `{RT : Runtime}.
Implicit Types (source_conn target_conn : Conn) (rs : list ValidationResult).
Implicit Types (table e : string) (ts : list string).

(** ** Table Existence *)

Lemma missing_empty_iff (ls lt : list string) :
  missing_in_target (list_to_set ls) (list_to_set lt) = ∅
  ↔ ∀ t, t ∈ ls → t ∈ lt.
Proof.
  unfold missing_in_target. split.
  - intros H t Ht. destruct (decide (t ∈ lt)) as [|Hn]; [done|].
    assert (t ∈ (∅ : gset string)) as Habs; [|set_solver].
    rewrite <- H. set_solver.
  - intros H. apply set_eq. intros t.
    rewrite elem_of_difference, !elem_of_list_to_set, elem_of_empty.
    split; [intros [Hin Hout]; exact (Hout (H t Hin))|intros []].
Qed.

Lemma validate_table_existence_ok source_conn target_conn rs ls lt :
  get_tables source_conn = Ok ls →
  get_tables target_conn = Ok lt →
  validate_table_existence source_conn target_conn rs
  = Ok (rs ++ [mkResult "Table Existence"
                 (bool_decide (size (missing_in_target (list_to_set ls)
                                       (list_to_set lt)) = 0%nat))
                 (VList (set_iter (list_to_set ls)))
                 (VList (set_iter (list_to_set lt)))
                 (existence_message (list_to_set ls) (list_to_set lt))]).
Proof.
  intros Hs Ht. unfold validate_table_existence. by rewrite Hs, Ht.
Qed.

Lemma existence_passed_iff (ls lt : list string) :
  bool_decide (size (missing_in_target (list_to_set ls) (list_to_set lt)) = 0%nat)
  = true
  ↔ missing_in_target (list_to_set ls) (list_to_set lt) = ∅.
Proof.
  rewrite bool_decide_eq_true, size_empty_iff. by unfold_leibniz.
Qed.

(** C5. With [missing] the source tables minus the target tables and
    [extra] the target tables minus the source tables, Table Existence
    passes exactly when [missing] is empty, that is when every source table
    is a target table; tables of the target alone never fail it: a target
    that holds more tables still passes. *)
Theorem table_existence_passes_iff_none_missing
    source_conn target_conn rs ls lt :
  get_tables source_conn = Ok ls →
  get_tables target_conn = Ok lt →
  let source_tables : gset string := list_to_set ls in
  let target_tables : gset string := list_to_set lt in
  missing_in_target source_tables target_tables = source_tables ∖ target_tables
  ∧ extra_in_target source_tables target_tables = target_tables ∖ source_tables
  ∧ ∃ r,
      validate_table_existence source_conn target_conn rs = Ok (rs ++ [r])
      ∧ check_name r = "Table Existence"
      ∧ (passed r = true ↔ source_tables ∖ target_tables = ∅)
      ∧ (passed r = true ↔ ∀ t, t ∈ ls → t ∈ lt)
      ∧ (∀ target_conn' lt',
           get_tables target_conn' = Ok lt' →
           (∀ t, t ∈ lt → t ∈ lt') →
           passed r = true →
           ∃ r', validate_table_existence source_conn target_conn' rs
                 = Ok (rs ++ [r'])
                 ∧ passed r' = true).
Proof.
  intros Hs Ht source_tables target_tables.
  split; [done|]. split; [done|].
  eexists. split; [by apply validate_table_existence_ok|].
  cbn [check_name passed]. split; [done|].
  split; [apply existence_passed_iff|].
  split; [by rewrite existence_passed_iff, missing_empty_iff|].
  intros target_conn' lt' Ht' Hsub Hp.
  eexists. split; [by apply validate_table_existence_ok|].
  cbn [passed]. rewrite existence_passed_iff, missing_empty_iff in Hp |- *.
  auto.
Qed.

Lemma existence_message_missing (S T : gset string) :
  missing_in_target S T ≠ ∅ →
  existence_message S T
  = "Missing tables in target: "
      +:+ String.concat ", " (set_iter (missing_in_target S T)).
Proof.
  intros H. unfold existence_message. by rewrite bool_decide_eq_true_2.
Qed.

Lemma existence_message_extra (S T : gset string) :
  missing_in_target S T = ∅ →
  extra_in_target S T ≠ ∅ →
  existence_message S T
  = "Extra tables in target (OK): "
      +:+ String.concat ", " (set_iter (extra_in_target S T)).
Proof.
  intros H1 H2. unfold existence_message.
  rewrite bool_decide_eq_false_2 by (by intros []).
  by rewrite bool_decide_eq_true_2.
Qed.

(** C10. When tables are missing the message of Table Existence lists the
    missing tables and nothing else, also when the target has extra tables;
    a message that lists the extra tables is produced only when no source
    table is missing. *)
Theorem table_existence_message_prefers_missing
    source_conn target_conn rs ls lt :
  get_tables source_conn = Ok ls →
  get_tables target_conn = Ok lt →
  let missing := missing_in_target (list_to_set ls) (list_to_set lt) in
  let extra := extra_in_target (list_to_set ls) (list_to_set lt) in
  ∃ r,
    validate_table_existence source_conn target_conn rs = Ok (rs ++ [r])
    ∧ (missing ≠ ∅ → extra ≠ ∅ →
       message r
       = "Missing tables in target: " +:+ String.concat ", " (set_iter missing))
    ∧ (missing ≠ ∅ →
       message r
       = "Missing tables in target: " +:+ String.concat ", " (set_iter missing))
    ∧ (missing = ∅ → extra ≠ ∅ →
       message r
       = "Extra tables in target (OK): "
           +:+ String.concat ", " (set_iter extra))
    ∧ (∀ listed, message r = "Extra tables in target (OK): " +:+ listed →
       missing = ∅ ∧ extra ≠ ∅).
Proof.
  intros Hs Ht missing extra.
  eexists. split; [by apply validate_table_existence_ok|].
  cbn [message].
  split; [intros; by apply existence_message_missing|].
  split; [intros; by apply existence_message_missing|].
  split; [intros; by apply existence_message_extra|].
  intros listed. unfold existence_message.
  fold missing extra.
  repeat case_bool_decide; cbn; intros Heq; try discriminate Heq.
  split; [|done].
  destruct (decide (missing = ∅)); [done|]. contradiction.
Qed.

(** ** Loops over the source tables *)

Lemma for_in_lines (body : LoopState → string → result LoopState) ts :
  Forall (one_line body) ts →
  ∀ all_match details,
    for_in ts (all_match, details) body
    = Ok (all_match && forallb (verdict body) ts,
          details ++ map (detail body) ts).
Proof.
  induction 1 as [|t ts Ht _ IH]; intros all_match details; cbn.
  - by rewrite andb_true_r, app_nil_r.
  - rewrite Ht. cbn. rewrite IH, <- app_assoc. cbn.
    by destruct (verdict body t), all_match.
Qed.

Lemma for_in_raises (body : LoopState → string → result LoopState)
    ts1 table ts2 e :
  Forall (one_line body) ts1 →
  raises body table e →
  ∀ st, for_in (ts1 ++ table :: ts2) st body = Raise e.
Proof.
  intros H Hr. induction H as [|t ts Ht _ IH]; intros [all_match details]; cbn.
  - by rewrite Hr.
  - rewrite Ht. cbn. apply IH.
Qed.

(** When every iteration returns or raises a fixed exception, the loop raises
    as soon as one table does. *)
Lemma for_in_some_raises (body : LoopState → string → result LoopState) ts :
  Forall (λ t, one_line body t ∨ ∃ e, raises body t e) ts →
  Exists (λ t, ∃ e, raises body t e) ts →
  ∃ e, ∀ st, for_in ts st body = Raise e.
Proof.
  induction 1 as [|t ts Ht _ IH]; intros Hex; inversion Hex; subst.
  - destruct H0 as [e He]. exists e. intros st. cbn. by rewrite He.
  - destruct Ht as [Ht|[e He]].
    + destruct (IH H0) as [e He]. exists e. intros [all_match details]. cbn.
      rewrite Ht. cbn. apply He.
    + exists e. intros st. cbn. by rewrite He.
Qed.

Lemma loop_from_start (body : LoopState → string → result LoopState) ts :
  Forall (one_line body) ts →
  for_in ts (true, []) body
  = Ok (forallb (verdict body) ts, map (detail body) ts).
Proof. intros H. by rewrite (for_in_lines _ _ H). Qed.

Lemma forallb_elem_of {A} (f : A → bool) (l : list A) :
  forallb f l = true ↔ ∀ x, x ∈ l → f x = true.
Proof.
  rewrite forallb_forall. by setoid_rewrite list_elem_of_In.
Qed.

Lemma forallb_agree {A} (f g : A → bool) (l : list A) :
  (∀ x, x ∈ l → f x = g x) → forallb f l = forallb g l.
Proof.
  induction l as [|x l IH]; intros H; cbn; [done|].
  rewrite (H x), IH; [done| |by left]. intros y Hy. apply H. by right.
Qed.

(** ** The loop bodies *)

Lemma row_counts_body_returns source_conn target_conn table (c : Z) :
  get_row_count source_conn table = Ok c →
  let tc := match get_row_count target_conn table with
            | Ok c' => c'
            | Raise _ => 0
            end in
  one_line (row_counts_body source_conn target_conn) table
  ∧ verdict (row_counts_body source_conn target_conn) table
    = bool_decide (c = tc)
  ∧ detail (row_counts_body source_conn target_conn) table
    = (if bool_decide (c = tc) then check_mark else cross_mark)
        +:+ " " +:+ table +:+ ": " +:+ pretty c +:+ " vs " +:+ pretty tc.
Proof.
  intros Hs tc. unfold one_line, verdict, detail, row_counts_body.
  rewrite Hs. cbn [mbind result_bind].
  assert (try_except (get_row_count target_conn table) (λ _, Ok 0) = Ok tc)
    as ->.
  { unfold tc. by destruct (get_row_count target_conn table). }
  cbn [mbind result_bind]. split; [|split].
  - intros all_match details. by destruct (bool_decide (c = tc)).
  - by destruct (bool_decide (c = tc)).
  - done.
Qed.

Lemma row_counts_body_raises source_conn target_conn table e :
  get_row_count source_conn table = Raise e →
  raises (row_counts_body source_conn target_conn) table e.
Proof.
  intros Hs [all_match details]. unfold row_counts_body. by rewrite Hs.
Qed.

Lemma schemas_body_returns source_conn target_conn table ss :
  get_table_schema source_conn table = Ok ss →
  let target_schema := match get_table_schema target_conn table with
                       | Ok s => s
                       | Raise _ => []
                       end in
  one_line (schemas_body source_conn target_conn) table
  ∧ verdict (schemas_body source_conn target_conn) table
    = bool_decide (column_types ss = column_types target_schema).
Proof.
  intros Hs target_schema. unfold one_line, verdict, detail, schemas_body.
  rewrite Hs. cbn [mbind result_bind].
  assert (try_except (get_table_schema target_conn table) (λ _, Ok [])
          = Ok target_schema) as ->.
  { unfold target_schema. by destruct (get_table_schema target_conn table). }
  cbn [mbind result_bind].
  by destruct (bool_decide (column_types ss = column_types target_schema)).
Qed.

Lemma schemas_body_raises source_conn target_conn table e :
  get_table_schema source_conn table = Raise e →
  raises (schemas_body source_conn target_conn) table e.
Proof.
  intros Hs [all_match details]. unfold schemas_body. by rewrite Hs.
Qed.

Lemma constraints_body_returns source_conn target_conn table sc :
  get_constraints source_conn table = Ok sc →
  let target_constraints := match get_constraints target_conn table with
                            | Ok l => l
                            | Raise _ => []
                            end in
  one_line (constraints_body source_conn target_conn) table
  ∧ verdict (constraints_body source_conn target_conn) table
    = bool_decide (length (primary_key_rows sc)
                   = length (primary_key_rows target_constraints)).
Proof.
  intros Hs target_constraints.
  unfold one_line, verdict, detail, constraints_body.
  rewrite Hs. cbn [mbind result_bind].
  assert (try_except (get_constraints target_conn table) (λ _, Ok [])
          = Ok target_constraints) as ->.
  { unfold target_constraints. by destruct (get_constraints target_conn table). }
  cbn [mbind result_bind].
  by destruct (bool_decide (length (primary_key_rows sc)
                            = length (primary_key_rows target_constraints))).
Qed.

Lemma constraints_body_raises source_conn target_conn table e :
  get_constraints source_conn table = Raise e →
  raises (constraints_body source_conn target_conn) table e.
Proof.
  intros Hs [all_match details]. unfold constraints_body. by rewrite Hs.
Qed.

Lemma data_integrity_body_returns source_conn target_conn sample_size table :
  one_line (data_integrity_body source_conn target_conn sample_size) table.
Proof.
  unfold one_line, verdict, detail, data_integrity_body.
  intros all_match details.
  destruct (get_data_checksum source_conn table sample_size) as [a|e];
    cbn [mbind result_bind try_except]; [|done].
  destruct (get_data_checksum target_conn table sample_size) as [b|e];
    cbn [mbind result_bind try_except]; [|done].
  by destruct (bool_decide (a = b)).
Qed.

Lemma data_integrity_body_error source_conn target_conn sample_size table e :
  get_data_checksum source_conn table sample_size = Raise e
  ∨ ((∃ c, get_data_checksum source_conn table sample_size = Ok c)
     ∧ get_data_checksum target_conn table sample_size = Raise e) →
  verdict (data_integrity_body source_conn target_conn sample_size) table
  = false
  ∧ detail (data_integrity_body source_conn target_conn sample_size) table
    = cross_mark +:+ " " +:+ table +:+ ": Error - " +:+ e.
Proof.
  unfold verdict, detail, data_integrity_body.
  intros [Hs|[[c Hs] Ht]]; rewrite Hs; cbn [mbind result_bind try_except];
    [done|]. by rewrite Ht.
Qed.

(** ** One result per check *)

Lemma one_result_table_existence source_conn target_conn :
  one_result "Table Existence"
    (validate_table_existence source_conn target_conn).
Proof.
  unfold one_result, validate_table_existence.
  destruct (get_tables source_conn) as [ls|e]; cbn; [|left; by exists e].
  destruct (get_tables target_conn) as [lt|e]; cbn; [|left; by exists e].
  right. eexists. split; [|intros rs; reflexivity]. done.
Qed.

Ltac loop_check :=
  unfold one_result;
  match goal with
  | |- context [get_tables ?c] =>
    destruct (get_tables c) as [ts|e]; cbn; [|left; by exists e]
  end;
  match goal with
  | |- context [for_in ?ts ?st ?body] =>
    destruct (for_in ts st body) as [[all_match details]|e]; cbn;
    [|left; by exists e]
  end;
  right; eexists; split; [|intros rs; reflexivity]; done.

Lemma one_result_row_counts source_conn target_conn :
  one_result "Row Counts" (validate_row_counts source_conn target_conn).
Proof. unfold validate_row_counts. loop_check. Qed.

Lemma one_result_schemas source_conn target_conn :
  one_result "Schema Structure" (validate_schemas source_conn target_conn).
Proof. unfold validate_schemas. loop_check. Qed.

Lemma one_result_constraints source_conn target_conn :
  one_result "Constraints" (validate_constraints source_conn target_conn).
Proof. unfold validate_constraints. loop_check. Qed.

Lemma one_result_data_integrity source_conn target_conn sample_size :
  one_result "Data Integrity"
    (validate_data_integrity source_conn target_conn sample_size).
Proof. unfold validate_data_integrity. loop_check. Qed.

(** One step of the orchestrator's loop. *)
Lemma guarded_step name f :
  one_result name f →
  ∃ r, check_name r = name
       ∧ (∀ rs,
            try_except (f rs) (λ e, Ok (rs ++ [error_result name e]))
            = Ok (rs ++ [r]))
       ∧ (∀ rs e, f rs = Raise e → r = error_result name e).
Proof.
  intros [[e He]|[r [Hn Hr]]].
  - exists (error_result name e). split; [done|]. split.
    + intros rs. by rewrite He.
    + intros rs e'. rewrite He. by intros [= ->].
  - exists r. split; [done|]. split.
    + intros rs. by rewrite Hr.
    + intros rs e. by rewrite Hr.
Qed.

Lemma run_all_validations_appends source_conn target_conn :
  ∃ r1 r2 r3 r4 r5,
    (∀ rs, run_all_validations source_conn target_conn rs
           = Ok (rs ++ [r1; r2; r3; r4; r5]))
    ∧ map check_name [r1; r2; r3; r4; r5]
      = ["Table Existence"; "Row Counts"; "Schema Structure"; "Constraints";
         "Data Integrity"]
    ∧ (∀ rs e, validate_table_existence source_conn target_conn rs = Raise e →
               r1 = error_result "Table Existence" e)
    ∧ (∀ rs e, validate_row_counts source_conn target_conn rs = Raise e →
               r2 = error_result "Row Counts" e)
    ∧ (∀ rs e, validate_schemas source_conn target_conn rs = Raise e →
               r3 = error_result "Schema Structure" e)
    ∧ (∀ rs e, validate_constraints source_conn target_conn rs = Raise e →
               r4 = error_result "Constraints" e)
    ∧ (∀ rs e, validate_data_integrity source_conn target_conn 1000 rs = Raise e →
               r5 = error_result "Data Integrity" e).
Proof.
  destruct (guarded_step _ _ (one_result_table_existence source_conn target_conn))
    as (r1 & N1 & S1 & E1).
  destruct (guarded_step _ _ (one_result_row_counts source_conn target_conn))
    as (r2 & N2 & S2 & E2).
  destruct (guarded_step _ _ (one_result_schemas source_conn target_conn))
    as (r3 & N3 & S3 & E3).
  destruct (guarded_step _ _ (one_result_constraints source_conn target_conn))
    as (r4 & N4 & S4 & E4).
  destruct (guarded_step _ _
              (one_result_data_integrity source_conn target_conn 1000))
    as (r5 & N5 & S5 & E5).
  exists r1, r2, r3, r4, r5.
  split; [|split; [cbn; by rewrite N1, N2, N3, N4, N5|done]].
  intros rs. unfold run_all_validations, validations. cbn [for_in].
  rewrite S1. cbn [mbind result_bind]. rewrite S2. cbn [mbind result_bind].
  rewrite S3. cbn [mbind result_bind]. rewrite S4. cbn [mbind result_bind].
  rewrite S5. cbn [mbind result_bind for_in].
  by rewrite <- !app_assoc.
Qed.

(** C2. [run_all_validations] returns, having appended five results to
    [self.results]: one per check, in the order Table Existence, Row Counts,
    Schema Structure, Constraints, Data Integrity.  The result of a check
    that raised is the failed result of that name with the message
    ["Error: "] followed by the text of the exception. *)
Theorem run_all_validations_one_result_per_check source_conn target_conn rs :
  ∃ r1 r2 r3 r4 r5,
    run_all_validations source_conn target_conn rs
    = Ok (rs ++ [r1; r2; r3; r4; r5])
    ∧ check_name r1 = "Table Existence"
    ∧ check_name r2 = "Row Counts"
    ∧ check_name r3 = "Schema Structure"
    ∧ check_name r4 = "Constraints"
    ∧ check_name r5 = "Data Integrity"
    ∧ (∀ e, validate_table_existence source_conn target_conn rs = Raise e →
            r1 = mkResult "Table Existence" false VNone VNone ("Error: " +:+ e))
    ∧ (∀ e, validate_row_counts source_conn target_conn (rs ++ [r1]) = Raise e →
            r2 = mkResult "Row Counts" false VNone VNone ("Error: " +:+ e))
    ∧ (∀ e, validate_schemas source_conn target_conn (rs ++ [r1; r2]) = Raise e →
            r3 = mkResult "Schema Structure" false VNone VNone ("Error: " +:+ e))
    ∧ (∀ e, validate_constraints source_conn target_conn (rs ++ [r1; r2; r3])
            = Raise e →
            r4 = mkResult "Constraints" false VNone VNone ("Error: " +:+ e))
    ∧ (∀ e, validate_data_integrity source_conn target_conn 1000
              (rs ++ [r1; r2; r3; r4]) = Raise e →
            r5 = mkResult "Data Integrity" false VNone VNone ("Error: " +:+ e)).
Proof.
  destruct (run_all_validations_appends source_conn target_conn)
    as (r1 & r2 & r3 & r4 & r5 & Hrun & Hnames & E1 & E2 & E3 & E4 & E5).
  exists r1, r2, r3, r4, r5. injection Hnames as N1 N2 N3 N4 N5.
  repeat split; try done; intros e He.
  - exact (E1 _ _ He).
  - exact (E2 _ _ He).
  - exact (E3 _ _ He).
  - exact (E4 _ _ He).
  - exact (E5 _ _ He).
Qed.

(** Within one process: run twice against the same answers,
    [run_all_validations] appends the same five results both times. *)
Lemma run_all_validations_repeatable source_conn target_conn rs :
  ∃ first second,
    run_all_validations source_conn target_conn rs = Ok (rs ++ first)
    ∧ run_all_validations source_conn target_conn (rs ++ first)
      = Ok ((rs ++ first) ++ second)
    ∧ length first = 5%nat
    ∧ length second = 5%nat
    ∧ map passed second = map passed first
    ∧ map message second = map message first
    ∧ run_all_validations source_conn target_conn [] = Ok first.
Proof.
  destruct (run_all_validations_appends source_conn target_conn)
    as (r1 & r2 & r3 & r4 & r5 & Hrun & _).
  exists [r1; r2; r3; r4; r5], [r1; r2; r3; r4; r5].
  rewrite !Hrun. done.
Qed.

(** ** The exit code *)

(** C4. When both connections were made and the run ends in [sys.exit],
    the exit code is 0 exactly when every result of the run passed, and 1
    otherwise; a check whose exception was turned into a failed result makes
    it 1. *)
Theorem exit_code_zero_iff_all_passed
    source_conn target_conn output_file (code : Z) :
  main (Some source_conn) (Some target_conn) output_file = SystemExit code →
  ∃ results,
    run_all_validations source_conn target_conn [] = Ok results
    ∧ exit_status (main (Some source_conn) (Some target_conn) output_file)
      = code
    ∧ (code = 0 ↔ ∀ r, r ∈ results → passed r = true)
    ∧ (code = 1 ↔ ∃ r, r ∈ results ∧ passed r = false)
    ∧ (∀ name e, error_result name e ∈ results → code = 1).
Proof.
  intros Hmain. rewrite Hmain. cbn [exit_status]. revert Hmain.
  unfold main, try_finally.
  destruct (run_all_validations source_conn target_conn []) as [results|e].
  2: { cbn [mbind result_bind]. by destruct (_ ≫= _). }
  cbn [mbind result_bind].
  destruct (q_close source_conn) as [[]|e]; [|done].
  destruct (q_close target_conn) as [[]|e]; [|done].
  intros Hcode. exists results. split; [done|]. split; [done|].
  assert (code = if forallb passed results then 0 else 1) as ->.
  { destruct output_file as [f|]; [case_bool_decide|];
      try destruct (export_report results f) as [[]|e];
      cbn in Hcode; congruence. }
  destruct (forallb passed results) eqn:Hall.
  - rewrite forallb_forall in Hall. setoid_rewrite <- list_elem_of_In in Hall.
    split; [done|].
    split; [split; [done|]|].
    + intros (r & Hr & Hf). rewrite (Hall r Hr) in Hf. done.
    + intros name e Hin. specialize (Hall _ Hin). done.
  - assert (∃ r, r ∈ results ∧ passed r = false) as Hex.
    { clear Hcode. apply not_true_iff_false in Hall.
      induction results as [|r results IH]; [done|].
      cbn in Hall. destruct (passed r) eqn:Hr.
      - destruct IH as (r' & Hin & Hf); [by cbn in Hall|].
        exists r'. split; [by right|done].
      - exists r. split; [by left|done]. }
    split; [split; [done|]|].
    + intros Hp. destruct Hex as (r & Hr & Hf). rewrite (Hp r Hr) in Hf. done.
    + done.
Qed.

(** ** Row Counts *)

(** C6. Row Counts walks the source's table list and nothing else: it has
    one detail line per source table, in that order, and the target's own
    table list plays no part.  A target count that cannot be read counts as
    0.  A table matches exactly when the two counts are equal, and the check
    passes exactly when every source table matches. *)
Theorem row_counts_follow_source_tables
    source_conn target_conn rs ts (sc : string → Z) :
  get_tables source_conn = Ok ts →
  (∀ t, t ∈ ts → get_row_count source_conn t = Ok (sc t)) →
  let tc := λ t, match get_row_count target_conn t with
                 | Ok c => c
                 | Raise _ => 0
                 end in
  let line := λ t,
    (if bool_decide (sc t = tc t) then check_mark else cross_mark)
      +:+ " " +:+ t +:+ ": " +:+ pretty (sc t) +:+ " vs " +:+ pretty (tc t) in
  ∃ r,
    validate_row_counts source_conn target_conn rs = Ok (rs ++ [r])
    ∧ check_name r = "Row Counts"
    ∧ source_value r = VList (map line ts)
    ∧ (∀ t, t ∈ ts →
         (verdict (row_counts_body source_conn target_conn) t = true
          ↔ sc t = tc t))
    ∧ (passed r = true ↔ ∀ t, t ∈ ts → sc t = tc t)
    ∧ (∀ t e, get_row_count target_conn t = Raise e → tc t = 0)
    ∧ (∀ target_conn',
         (∀ t, t ∈ ts →
               get_row_count target_conn' t = get_row_count target_conn t) →
         validate_row_counts source_conn target_conn' rs = Ok (rs ++ [r])).
Proof.
  intros Htables Hsrc tc line.
  assert (∀ tgt, (∀ t, t ∈ ts → get_row_count tgt t = get_row_count target_conn t) →
          validate_row_counts source_conn tgt rs
          = Ok (rs ++ [mkResult "Row Counts"
                         (forallb (λ t, bool_decide (sc t = tc t)) ts)
                         (VList (map line ts)) VNone
                         (if forallb (λ t, bool_decide (sc t = tc t)) ts
                          then "All row counts match"
                          else "Row count mismatch detected")])) as Hrun.
  { intros tgt Hsame. unfold validate_row_counts. rewrite Htables.
    cbn [mbind result_bind].
    rewrite loop_from_start.
    2: { apply Forall_forall. intros t Ht.
         by apply (row_counts_body_returns _ tgt _ _ (Hsrc t Ht)). }
    cbn [mbind result_bind].
    assert (forallb (verdict (row_counts_body source_conn tgt)) ts
            = forallb (λ t, bool_decide (sc t = tc t)) ts) as ->.
    { apply forallb_agree. intros t Ht.
      destruct (row_counts_body_returns _ tgt _ _ (Hsrc t Ht)) as (_ & -> & _).
      unfold tc. by rewrite (Hsame t Ht). }
    assert (map (detail (row_counts_body source_conn tgt)) ts = map line ts)
      as ->; [|done].
    apply map_ext_in. intros t Ht%list_elem_of_In.
    destruct (row_counts_body_returns _ tgt _ _ (Hsrc t Ht)) as (_ & _ & ->).
    unfold line, tc. by rewrite (Hsame t Ht). }
  eexists. split; [by apply Hrun|]. cbn [check_name source_value passed].
  split; [done|]. split; [done|]. split; [|split; [|split]].
  - intros t Ht.
    destruct (row_counts_body_returns _ target_conn _ _ (Hsrc t Ht))
      as (_ & -> & _).
    apply bool_decide_eq_true.
  - rewrite forallb_elem_of. by setoid_rewrite bool_decide_eq_true.
  - intros t e He. unfold tc. by rewrite He.
  - intros tgt Hsame. by apply Hrun.
Qed.

(** ** Constraints *)

Lemma primary_key_rows_skip (l1 l2 : list Constraint) (c : Constraint) :
  con_type c ≠ "PRIMARY KEY" →
  primary_key_rows (l1 ++ c :: l2) = primary_key_rows (l1 ++ l2).
Proof.
  intros Hc. unfold primary_key_rows.
  rewrite !filter_app, filter_cons. by rewrite decide_False.
Qed.

(** One table of Constraints: the verdict of the loop body. *)
Lemma constraints_compare_primary_key_rows
    source_conn target_conn table sc :
  get_constraints source_conn table = Ok sc →
  let target_constraints := match get_constraints target_conn table with
                            | Ok l => l
                            | Raise _ => []
                            end in
  let matches := verdict (constraints_body source_conn target_conn) table in
  one_line (constraints_body source_conn target_conn) table
  ∧ (matches = true
     ↔ length (primary_key_rows sc)
       = length (primary_key_rows target_constraints))
  ∧ (∀ l1 l2 c, con_type c ≠ "PRIMARY KEY" →
       primary_key_rows (l1 ++ c :: l2) = primary_key_rows (l1 ++ l2))
  ∧ (∀ source_conn' target_conn' sc' tc',
       get_constraints source_conn' table = Ok sc' →
       get_constraints target_conn' table = Ok tc' →
       primary_key_rows sc' = primary_key_rows sc →
       primary_key_rows tc' = primary_key_rows target_constraints →
       verdict (constraints_body source_conn' target_conn') table = matches)
  ∧ ((∃ e, get_constraints target_conn table = Raise e)
     ∨ get_constraints target_conn table = Ok [] →
     target_constraints = []
     ∧ (matches = true ↔ primary_key_rows sc = [])).
Proof.
  intros Hs target_constraints matches.
  destruct (constraints_body_returns _ target_conn _ _ Hs) as [Hline Hv].
  fold target_constraints in Hv. fold matches in Hv.
  split; [done|]. split; [by rewrite Hv, bool_decide_eq_true|].
  split; [apply primary_key_rows_skip|]. split.
  - intros source_conn' target_conn' sc' tc' Hs' Ht' Hsc Htc.
    destruct (constraints_body_returns _ target_conn' _ _ Hs') as [_ ->].
    rewrite Ht', Hsc, Htc. by rewrite Hv.
  - intros Hempty.
    assert (target_constraints = []) as Hnil.
    { unfold target_constraints. by destruct Hempty as [[e ->]| ->]. }
    split; [done|]. rewrite Hv, Hnil, bool_decide_eq_true. cbn.
    by destruct (primary_key_rows sc).
Qed.

(** ** Schema Structure *)

Lemma column_types_snoc (s : list Column) (c : Column) :
  column_types (s ++ [c]) = <[col_name c := col_type c]> (column_types s).
Proof. unfold column_types. by rewrite foldl_snoc. Qed.

Lemma dom_column_types (s : list Column) :
  dom (column_types s) = list_to_set (map col_name s).
Proof.
  induction s as [|c s IH] using rev_ind.
  { unfold column_types. cbn. by rewrite dom_empty_L. }
  rewrite column_types_snoc, dom_insert_L, IH, map_app, list_to_set_app_L.
  cbn. rewrite (right_id_L ∅ (∪)). apply (comm_L (∪)).
Qed.

Lemma column_types_name_and_type (s t : list Column) :
  map name_and_type s = map name_and_type t →
  column_types s = column_types t.
Proof.
  revert t. induction s as [|c s IH] using rev_ind; intros t H.
  - destruct t; [done|discriminate].
  - destruct t as [|c' t _] using rev_ind.
    { rewrite map_app in H. by destruct (map name_and_type s). }
    rewrite !map_app in H. cbn in H. apply app_inj_tail in H as [H1 H2].
    rewrite !column_types_snoc, (IH _ H1).
    unfold name_and_type in H2. by injection H2 as -> ->.
Qed.

Lemma lookup_column_types (s : list Column) (c : Column) :
  NoDup (map col_name s) → c ∈ s →
  column_types s !! col_name c = Some (col_type c).
Proof.
  induction s as [|x s IH] using rev_ind; intros Hnd Hin.
  { by apply elem_of_nil in Hin. }
  rewrite column_types_snoc.
  rewrite map_app in Hnd. apply NoDup_app in Hnd as (Hnd & Hfresh & _).
  apply elem_of_app in Hin as [Hin|Hin%list_elem_of_singleton].
  - rewrite lookup_insert_ne; [by apply IH|].
    intros Heq. apply (Hfresh (col_name c)).
    + apply list_elem_of_fmap. by exists c.
    + rewrite <- Heq. cbn. by left.
  - subst x. by rewrite lookup_insert_eq.
Qed.

Lemma column_types_nil_iff (s : list Column) :
  column_types s = ∅ ↔ s = [].
Proof.
  split; [|by intros ->].
  destruct s as [|c s _] using rev_ind; [done|].
  rewrite column_types_snoc. intros H.
  by apply insert_non_empty in H.
Qed.

Lemma column_types_differ_by_name (s t : list Column) (n : string) :
  n ∈ map col_name s → n ∉ map col_name t →
  column_types s ≠ column_types t.
Proof.
  intros Hin Hout Heq.
  assert (n ∈ dom (column_types s)) as Hd.
  { rewrite dom_column_types. by apply elem_of_list_to_set. }
  rewrite Heq, dom_column_types in Hd. by apply elem_of_list_to_set in Hd.
Qed.

Lemma name_in_middle (s1 s2 : list Column) (c : Column) :
  col_name c ∈ map col_name (s1 ++ c :: s2).
Proof.
  rewrite map_app. apply elem_of_app. right. cbn. by left.
Qed.

Lemma name_not_in_rest (s1 s2 : list Column) (c : Column) :
  NoDup (map col_name (s1 ++ c :: s2)) →
  (col_name c ∉ map col_name s1) ∧ (col_name c ∉ map col_name s2).
Proof.
  rewrite map_app. cbn. intros Hnd.
  apply NoDup_app in Hnd as (_ & Hfresh & Hnd).
  apply NoDup_cons in Hnd as [Hc _].
  split; [|done]. intros Hin. apply (Hfresh _ Hin). by left.
Qed.

(** One table of Schema Structure: the verdict of the loop body. *)
Lemma schemas_compare_names_and_types
    source_conn target_conn table ss :
  get_table_schema source_conn table = Ok ss →
  let target_schema := match get_table_schema target_conn table with
                       | Ok s => s
                       | Raise _ => []
                       end in
  let matches := verdict (schemas_body source_conn target_conn) table in
  one_line (schemas_body source_conn target_conn) table
  ∧ (matches = true ↔ column_types ss = column_types target_schema)
  ∧ (map name_and_type ss = map name_and_type target_schema → matches = true)
  ∧ (∀ s1 s2 c, ss = s1 ++ s2 → target_schema = s1 ++ c :: s2 →
       col_name c ∉ map col_name ss → matches = false)
  ∧ (∀ s1 s2 c, ss = s1 ++ c :: s2 → target_schema = s1 ++ s2 →
       col_name c ∉ map col_name target_schema → matches = false)
  ∧ (∀ s1 s2 c c', NoDup (map col_name ss) →
       ss = s1 ++ c :: s2 → target_schema = s1 ++ c' :: s2 →
       col_name c' ≠ col_name c → matches = false)
  ∧ (∀ s1 s2 c c', NoDup (map col_name ss) →
       ss = s1 ++ c :: s2 → target_schema = s1 ++ c' :: s2 →
       col_name c' = col_name c → col_type c' ≠ col_type c → matches = false)
  ∧ ((∃ e, get_table_schema target_conn table = Raise e)
     ∨ get_table_schema target_conn table = Ok [] →
     column_types target_schema = ∅ ∧ (matches = true ↔ ss = [])).
Proof.
  intros Hs target_schema matches.
  destruct (schemas_body_returns _ target_conn _ _ Hs) as [Hline Hv].
  fold target_schema in Hv. fold matches in Hv.
  split; [done|]. split; [by rewrite Hv, bool_decide_eq_true|].
  rewrite Hv. clear Hv Hline matches. repeat split.
  - intros H. apply bool_decide_eq_true. by apply column_types_name_and_type.
  - intros s1 s2 c -> -> Hc. apply bool_decide_eq_false. intros Heq.
    symmetry in Heq. revert Heq.
    apply (column_types_differ_by_name _ _ (col_name c)); [|done].
    apply name_in_middle.
  - intros s1 s2 c -> -> Hc. apply bool_decide_eq_false.
    apply (column_types_differ_by_name _ _ (col_name c)); [|done].
    apply name_in_middle.
  - intros s1 s2 c c' Hnd -> -> Hne. apply bool_decide_eq_false.
    apply (column_types_differ_by_name _ _ (col_name c)).
    { apply name_in_middle. }
    destruct (name_not_in_rest _ _ _ Hnd) as [H1 H2].
    rewrite map_app. cbn. rewrite elem_of_app, elem_of_cons.
    intros [Ha|[Hb|Hc]]; [by apply H1|by apply Hne|by apply H2].
  - intros s1 s2 c c' Hnd -> -> Hname Hty. apply bool_decide_eq_false.
    intros Heq.
    assert (column_types (s1 ++ c :: s2) !! col_name c = Some (col_type c))
      as H1.
    { apply lookup_column_types; [done|]. apply elem_of_app. right. by left. }
    assert (column_types (s1 ++ c' :: s2) !! col_name c' = Some (col_type c'))
      as H2.
    { apply lookup_column_types; [|apply elem_of_app; right; by left].
      rewrite map_app in Hnd |- *. cbn in Hnd |- *. by rewrite Hname. }
    rewrite Heq, <- Hname, H2 in H1. by injection H1.
  - unfold target_schema. by destruct H as [[e ->]| ->].
  - assert (target_schema = []) as ->.
    { unfold target_schema. by destruct H as [[e ->]| ->]. }
    rewrite bool_decide_eq_true. apply column_types_nil_iff.
  - assert (target_schema = []) as ->.
    { unfold target_schema. by destruct H as [[e ->]| ->]. }
    intros ->. by apply bool_decide_eq_true.
Qed.

(** ** The checksum sampler *)

(** C3, as the code has it.  When the primary-key lookup returns a row, be
    the key one column or several, the sampler selects all columns ordered
    by the column of the first row returned, with the given LIMIT; when the
    lookup returns no row it selects all columns with no ORDER BY and the
    same LIMIT.  A table with a one-column key is thus ordered by that
    column. *)
Theorem sampler_orders_by_first_key_row conn table (limit : Z) pk_rows :
  q_primary_key conn table = Ok pk_rows →
  (∀ pk_column rest, pk_rows = pk_column :: rest →
     sample_query (head pk_rows) table limit
     = SelectOrderByLimit table pk_column limit
     ∧ get_data_checksum conn table limit
       = (rows ← q_select conn (SelectOrderByLimit table pk_column limit);
          Ok (md5_hexdigest (str_rows rows))))
  ∧ (pk_rows = [] →
     sample_query (head pk_rows) table limit = SelectLimit table limit
     ∧ get_data_checksum conn table limit
       = (rows ← q_select conn (SelectLimit table limit);
          Ok (md5_hexdigest (str_rows rows))))
  ∧ (∀ pk_column, pk_rows = [pk_column] →
     sample_query (head pk_rows) table limit
     = SelectOrderByLimit table pk_column limit).
Proof.
  intros Hpk. unfold get_data_checksum. rewrite Hpk. cbn [mbind result_bind].
  split; [|split].
  - by intros pk_column rest ->.
  - by intros ->.
  - by intros pk_column ->.
Qed.

(** ** Errors of one table *)

(** C1, as the code has it.  Data Integrity catches the error of a table on
    either side: the table gets a failure line with the text of the error,
    every source table keeps its line, and the check is failed.  Row
    Counts, Schema Structure and Constraints catch an error on the target
    side only, putting 0, no columns or no constraints in its place: every
    source table keeps its line as long as the source can be read.  An
    error on the source side ends such a check at once, and
    [run_all_validations] records the check as one failed result without
    detail lines. *)
Theorem table_errors_are_contained source_conn target_conn rs ts :
  get_tables source_conn = Ok ts →
  (∃ r,
     validate_data_integrity source_conn target_conn 1000 rs = Ok (rs ++ [r])
     ∧ source_value r
       = VList (map (detail (data_integrity_body source_conn target_conn 1000))
                  ts)
     ∧ ∀ t e, t ∈ ts →
         get_data_checksum source_conn t 1000 = Raise e
         ∨ ((∃ c, get_data_checksum source_conn t 1000 = Ok c)
            ∧ get_data_checksum target_conn t 1000 = Raise e) →
         detail (data_integrity_body source_conn target_conn 1000) t
         = cross_mark +:+ " " +:+ t +:+ ": Error - " +:+ e
         ∧ passed r = false)
  ∧ ((∀ t, t ∈ ts → ∃ c, get_row_count source_conn t = Ok c) →
     ∃ r, validate_row_counts source_conn target_conn rs = Ok (rs ++ [r])
          ∧ source_value r
            = VList (map (detail (row_counts_body source_conn target_conn)) ts))
  ∧ ((∀ t, t ∈ ts → ∃ s, get_table_schema source_conn t = Ok s) →
     ∃ r, validate_schemas source_conn target_conn rs = Ok (rs ++ [r])
          ∧ source_value r
            = VList (map (detail (schemas_body source_conn target_conn)) ts))
  ∧ ((∀ t, t ∈ ts → ∃ l, get_constraints source_conn t = Ok l) →
     ∃ r, validate_constraints source_conn target_conn rs = Ok (rs ++ [r])
          ∧ source_value r
            = VList (map (detail (constraints_body source_conn target_conn)) ts))
  ∧ ((∃ t e, t ∈ ts ∧ get_row_count source_conn t = Raise e) →
     ∃ e r1 r3 r4 r5,
       (∀ rs', validate_row_counts source_conn target_conn rs' = Raise e)
       ∧ run_all_validations source_conn target_conn rs
         = Ok (rs ++ [r1; mkResult "Row Counts" false VNone VNone
                            ("Error: " +:+ e); r3; r4; r5]))
  ∧ ((∃ t e, t ∈ ts ∧ get_table_schema source_conn t = Raise e) →
     ∃ e r1 r2 r4 r5,
       (∀ rs', validate_schemas source_conn target_conn rs' = Raise e)
       ∧ run_all_validations source_conn target_conn rs
         = Ok (rs ++ [r1; r2; mkResult "Schema Structure" false VNone VNone
                                ("Error: " +:+ e); r4; r5]))
  ∧ ((∃ t e, t ∈ ts ∧ get_constraints source_conn t = Raise e) →
     ∃ e r1 r2 r3 r5,
       (∀ rs', validate_constraints source_conn target_conn rs' = Raise e)
       ∧ run_all_validations source_conn target_conn rs
         = Ok (rs ++ [r1; r2; r3; mkResult "Constraints" false VNone VNone
                                    ("Error: " +:+ e); r5])).
Proof.
  intros Htables.
  destruct (run_all_validations_appends source_conn target_conn)
    as (r1 & r2 & r3 & r4 & r5 & Hrun & _ & _ & E2 & E3 & E4 & _).
  split; [|split; [|split; [|split; [|split; [|split]]]]].
  - eexists. unfold validate_data_integrity. rewrite Htables.
    cbn [mbind result_bind]. rewrite loop_from_start.
    2: { apply Forall_forall. intros t _. apply data_integrity_body_returns. }
    cbn [mbind result_bind]. split; [done|]. cbn [source_value passed].
    split; [done|]. intros t e Ht He.
    destruct (data_integrity_body_error _ _ _ _ _ He) as [Hv Hd].
    split; [done|]. apply not_true_iff_false. rewrite forallb_elem_of.
    intros Hall. specialize (Hall t Ht). by rewrite Hv in Hall.
  - intros Hsrc. eexists. unfold validate_row_counts. rewrite Htables.
    cbn [mbind result_bind]. rewrite loop_from_start; [by split|].
    apply Forall_forall. intros t Ht. destruct (Hsrc t Ht) as [c Hc].
    by apply (row_counts_body_returns _ target_conn _ _ Hc).
  - intros Hsrc. eexists. unfold validate_schemas. rewrite Htables.
    cbn [mbind result_bind]. rewrite loop_from_start; [by split|].
    apply Forall_forall. intros t Ht. destruct (Hsrc t Ht) as [c Hc].
    by apply (schemas_body_returns _ target_conn _ _ Hc).
  - intros Hsrc. eexists. unfold validate_constraints. rewrite Htables.
    cbn [mbind result_bind]. rewrite loop_from_start; [by split|].
    apply Forall_forall. intros t Ht. destruct (Hsrc t Ht) as [c Hc].
    by apply (constraints_body_returns _ target_conn _ _ Hc).
  - intros (t & e & Ht & He).
    destruct (for_in_some_raises (row_counts_body source_conn target_conn) ts)
      as [e' He'].
    { apply Forall_forall. intros t' _.
      destruct (get_row_count source_conn t') as [c|e0] eqn:Hc.
      - left. by apply (row_counts_body_returns _ target_conn _ _ Hc).
      - right. exists e0. by apply row_counts_body_raises. }
    { apply Exists_exists. exists t. split; [done|].
      exists e. by apply row_counts_body_raises. }
    assert (∀ rs', validate_row_counts source_conn target_conn rs' = Raise e')
      as Hraise.
    { intros rs'. unfold validate_row_counts. rewrite Htables.
      cbn [mbind result_bind]. by rewrite He'. }
    exists e', r1, r3, r4, r5. split; [done|].
    rewrite Hrun. by rewrite (E2 rs e' (Hraise rs)).
  - intros (t & e & Ht & He).
    destruct (for_in_some_raises (schemas_body source_conn target_conn) ts)
      as [e' He'].
    { apply Forall_forall. intros t' _.
      destruct (get_table_schema source_conn t') as [c|e0] eqn:Hc.
      - left. by apply (schemas_body_returns _ target_conn _ _ Hc).
      - right. exists e0. by apply schemas_body_raises. }
    { apply Exists_exists. exists t. split; [done|].
      exists e. by apply schemas_body_raises. }
    assert (∀ rs', validate_schemas source_conn target_conn rs' = Raise e')
      as Hraise.
    { intros rs'. unfold validate_schemas. rewrite Htables.
      cbn [mbind result_bind]. by rewrite He'. }
    exists e', r1, r2, r4, r5. split; [done|].
    rewrite Hrun. by rewrite (E3 rs e' (Hraise rs)).
  - intros (t & e & Ht & He).
    destruct (for_in_some_raises (constraints_body source_conn target_conn) ts)
      as [e' He'].
    { apply Forall_forall. intros t' _.
      destruct (get_constraints source_conn t') as [c|e0] eqn:Hc.
      - left. by apply (constraints_body_returns _ target_conn _ _ Hc).
      - right. exists e0. by apply constraints_body_raises. }
    { apply Exists_exists. exists t. split; [done|].
      exists e. by apply constraints_body_raises. }
    assert (∀ rs', validate_constraints source_conn target_conn rs' = Raise e')
      as Hraise.
    { intros rs'. unfold validate_constraints. rewrite Htables.
      cbn [mbind result_bind]. by rewrite He'. }
    exists e', r1, r2, r3, r5. split; [done|].
    rewrite Hrun. by rewrite (E4 rs e' (Hraise rs)).
Qed.

End Properties.

(** * The theorems at the example databases *)

Lemma table_existence_passes_iff_none_missing_witness :
  get_tables demo_source = Ok ["audit"; "orders"]
  ∧ get_tables demo_partial = Ok ["orders"; "staging"]
  ∧ ∃ r,
      validate_table_existence demo_source demo_partial [] = Ok ([] ++ [r])
      ∧ (passed r = true
         ↔ ∀ t, t ∈ ["audit"; "orders"] → t ∈ ["orders"; "staging"]).
Proof.
  split; [reflexivity|]. split; [reflexivity|].
  destruct (table_existence_passes_iff_none_missing
              demo_source demo_partial [] _ _ eq_refl eq_refl)
    as (_ & _ & r & Hr & _ & _ & Hp & _).
  exists r. split; [exact Hr|exact Hp].
Defined.

Lemma table_existence_message_prefers_missing_witness :
  get_tables demo_source = Ok ["audit"; "orders"]
  ∧ get_tables demo_partial = Ok ["orders"; "staging"]
  ∧ ∃ r,
      validate_table_existence demo_source demo_partial [] = Ok ([] ++ [r])
      ∧ message r = "Missing tables in target: audit".
Proof.
  split; [reflexivity|]. split; [reflexivity|].
  destruct (table_existence_message_prefers_missing
              demo_source demo_partial [] _ _ eq_refl eq_refl)
    as (r & Hr & Hm & _).
  exists r. split; [exact Hr|].
  rewrite Hm; [reflexivity| |]; intros H; vm_compute in H; discriminate H.
Defined.

Lemma exit_code_zero_iff_all_passed_witness :
  main (Some demo_source) (Some demo_source) None = SystemExit 0
  ∧ ∃ results,
      run_all_validations demo_source demo_source [] = Ok results
      ∧ (0 = 0 ↔ ∀ r, r ∈ results → passed r = true).
Proof.
  split; [reflexivity|].
  destruct (exit_code_zero_iff_all_passed
              demo_source demo_source None 0 eq_refl)
    as (results & Hrun & _ & Hzero & _).
  exists results. split; [exact Hrun|exact Hzero].
Defined.

Lemma row_counts_follow_source_tables_witness :
  get_tables demo_source = Ok ["audit"; "orders"]
  ∧ (∀ t, t ∈ ["audit"; "orders"] →
          get_row_count demo_source t
          = Ok (if bool_decide (t = "orders") then 2 else 0))
  ∧ ∃ r,
      validate_row_counts demo_source demo_partial [] = Ok ([] ++ [r])
      ∧ source_value r = VList ["✓ audit: 0 vs 0"; "✓ orders: 2 vs 2"].
Proof.
  split; [reflexivity|]. split; [intros t _; reflexivity|].
  destruct (row_counts_follow_source_tables
              demo_source demo_partial [] ["audit"; "orders"]
              (λ t, if bool_decide (t = "orders") then 2 else 0)
              eq_refl (λ t _, eq_refl))
    as (r & Hr & _ & Hlines & _).
  exists r. split; [exact Hr|]. rewrite Hlines. reflexivity.
Defined.

Lemma sampler_orders_by_first_key_row_witness :
  q_primary_key demo_source "orders" = Ok ["id"]
  ∧ get_data_checksum demo_source "orders" 1000
    = (rows ← q_select demo_source (SelectOrderByLimit "orders" "id" 1000);
       Ok (@md5_hexdigest demo_runtime (@str_rows demo_runtime rows))).
Proof.
  split; [reflexivity|].
  destruct (sampler_orders_by_first_key_row
              demo_source "orders" 1000 ["id"] eq_refl)
    as (Hordered & _).
  exact (proj2 (Hordered "id" [] eq_refl)).
Defined.

Lemma table_errors_are_contained_witness :
  get_tables demo_source = Ok ["audit"; "orders"]
  ∧ get_data_checksum demo_partial "audit" 1000
    = Raise "relation does not exist"
  ∧ ∃ r,
      validate_data_integrity demo_source demo_partial 1000 [] = Ok ([] ++ [r])
      ∧ passed r = false
      ∧ detail (data_integrity_body demo_source demo_partial 1000) "audit"
        = "✗ audit: Error - relation does not exist".
Proof.
  split; [reflexivity|]. split; [reflexivity|].
  destruct (table_errors_are_contained
              demo_source demo_partial [] ["audit"; "orders"] eq_refl)
    as ((r & Hr & _ & Herr) & _).
  exists r. split; [exact Hr|].
  destruct (Herr "audit" "relation does not exist") as [Hd Hp].
  - by left.
  - right. split; [by eexists|reflexivity].
  - split; [exact Hp|exact Hd].
Defined.

(** source = {A, B}, target = {A, B, C}: passes, C is listed as extra. *)
Example existence_with_extra_table :
  (rs ← validate_table_existence (with_tables demo_source ["A"; "B"])
          (with_tables demo_source ["A"; "B"; "C"]) [];
   Ok (map verdict_and_message rs))
  = Ok [(true, "Extra tables in target (OK): C")].
Proof. reflexivity. Qed.

(** source = {A, B}, target = {A}: fails, B is missing. *)
Example existence_with_missing_table :
  (rs ← validate_table_existence (with_tables demo_source ["A"; "B"])
          (with_tables demo_source ["A"]) [];
   Ok (map verdict_and_message rs))
  = Ok [(false, "Missing tables in target: B")].
Proof. reflexivity. Qed.

(** A database compared with itself passes all five checks. *)
Example identical_databases_pass :
  (rs ← run_all_validations demo_source demo_source [];
   Ok (map passed rs))
  = Ok [true; true; true; true; true].
Proof. reflexivity. Qed.

(** [audit] is empty in the source and cannot be counted in the target: the
    target count is 0, the table matches and Row Counts passes. *)
Example unreadable_target_count_is_zero :
  get_row_count demo_partial "audit" = Raise "relation does not exist"
  ∧ validate_row_counts demo_source demo_partial []
    = Ok [mkResult "Row Counts" true
            (VList ["✓ audit: 0 vs 0"; "✓ orders: 2 vs 2"]) VNone
            "All row counts match"].
Proof. split; reflexivity. Qed.

(** * Where the code departs from the claims *)

(** C1 as stated fails.  Counting the rows of [audit] raises on the
    source; [orders] can be counted on both sides, yet Row Counts raises and
    its result in the run carries no detail line at all. *)
Lemma source_error_drops_detail_lines :
  get_tables demo_locked = Ok ["audit"; "orders"]
  ∧ get_row_count demo_locked "audit"
    = Raise "permission denied for table audit"
  ∧ get_row_count demo_locked "orders" = Ok 2
  ∧ get_row_count demo_source "orders" = Ok 2
  ∧ validate_row_counts demo_locked demo_source []
    = Raise "permission denied for table audit"
  ∧ ¬ (∃ r details,
         validate_row_counts demo_locked demo_source [] = Ok [r]
         ∧ source_value r = VList details
         ∧ "✓ orders: 2 vs 2" ∈ details)
  ∧ ∃ r1 r3 r4 r5,
      run_all_validations demo_locked demo_source []
      = Ok [r1;
            mkResult "Row Counts" false VNone VNone
              "Error: permission denied for table audit";
            r3; r4; r5].
Proof.
  repeat split; try reflexivity.
  - intros (r & details & Hr & _). discriminate Hr.
  - vm_compute. by repeat eexists.
Qed.

(** C3 as stated fails.  [order_items] has the composite key
    [(order_id, product_id)]; the sampler does not fall back to the
    statement without ORDER BY, it orders by [order_id]. *)
Lemma composite_key_sample_is_ordered :
  q_primary_key demo_composite "order_items" = Ok ["order_id"; "product_id"]
  ∧ length ["order_id"; "product_id"] ≠ 1%nat
  ∧ sample_query (head ["order_id"; "product_id"]) "order_items" 1000
    = SelectOrderByLimit "order_items" "order_id" 1000
  ∧ sample_query (head ["order_id"; "product_id"]) "order_items" 1000
    ≠ SelectLimit "order_items" 1000
  ∧ get_data_checksum demo_composite "order_items" 1000
    ≠ (rows ← q_select demo_composite (SelectLimit "order_items" 1000);
       Ok (@md5_hexdigest demo_runtime (@str_rows demo_runtime rows))).
Proof.
  repeat split; try reflexivity; try discriminate.
Qed.

(** * Further properties of the validator *)

Section Report.
Context `{RT : Runtime}.
Implicit Types (results : list ValidationResult) (now : string).

(** ** Counting the results *)

Lemma sum_of_ones {A} (l : list A) : sum_list (map (λ _, 1%nat) l) = length l.
Proof. induction l as [|x l IH]; cbn; [done|]. by rewrite IH. Qed.

Lemma counts_add_up results :
  (passed_count results + failed_count results)%nat = length results.
Proof.
  unfold passed_count, failed_count. rewrite !sum_of_ones.
  induction results as [|r results IH]; [done|].
  rewrite !filter_cons. destruct (passed r) eqn:Hr.
  - rewrite decide_True, decide_False by done. cbn. by rewrite IH.
  - rewrite decide_False, decide_True by done. cbn.
    rewrite Nat.add_succ_r. by rewrite IH.
Qed.

Lemma failed_count_zero_iff results :
  failed_count results = 0%nat ↔ forallb passed results = true.
Proof.
  unfold failed_count. rewrite sum_of_ones.
  induction results as [|r results IH]; [done|].
  rewrite filter_cons. cbn. destruct (passed r) eqn:Hr.
  - by rewrite decide_False.
  - by rewrite decide_True.
Qed.

Lemma passed_count_total_iff results :
  passed_count results = length results ↔ forallb passed results = true.
Proof.
  rewrite <- failed_count_zero_iff.
  pose proof (counts_add_up results). lia.
Qed.

Lemma all_passed_iff results :
  forallb passed results = true ↔ ∀ r, r ∈ results → passed r = true.
Proof. apply forallb_elem_of. Qed.

(** ** The printed report *)

(** X1. The report ends with the summary line, the overall verdict and a
    rule.  The verdict reads VALIDATED SUCCESSFULLY exactly when every
    result passed, the summary never counts more passed checks than there
    are results, and every result has its PASSED or FAILED line and its
    message line in the report. *)
Theorem print_report_verdict now results :
  ∃ lines,
    print_report now results
    = lines
      ++ ["SUMMARY: " +:+ pretty (passed_count results) +:+ "/"
            +:+ pretty (length results) +:+ " checks passed";
          if forallb passed results
          then "✓ MIGRATION VALIDATED SUCCESSFULLY"
          else "✗ MIGRATION VALIDATION FAILED";
          repeat_string "=" 60]
    ∧ (passed_count results ≤ length results)%nat
    ∧ (passed_count results = length results
       ↔ ∀ r, r ∈ results → passed r = true)
    ∧ ∀ r, r ∈ results →
        newline +:+ (if passed r then "✓ PASSED" else "✗ FAILED") +:+ ": "
          +:+ check_name r ∈ print_report now results
        ∧ "  Message: " +:+ message r ∈ print_report now results.
Proof.
  exists ([newline +:+ repeat_string "=" 60; "MIGRATION VALIDATION REPORT";
           repeat_string "=" 60; "Timestamp: " +:+ now;
           repeat_string "=" 60]
          ++ flat_map print_result results
          ++ [newline +:+ repeat_string "=" 60]).
  split; [|split; [|split]].
  - unfold print_report. cbv zeta.
    assert (bool_decide (passed_count results = length results)
            = forallb passed results) as ->.
    { destruct (forallb passed results) eqn:Hall.
      - by apply bool_decide_eq_true, passed_count_total_iff.
      - apply bool_decide_eq_false. rewrite passed_count_total_iff.
        by rewrite Hall. }
    rewrite <- !app_assoc. reflexivity.
  - pose proof (counts_add_up results). lia.
  - by rewrite passed_count_total_iff, all_passed_iff.
  - intros r Hr.
    assert (∀ line, line ∈ print_result r → line ∈ print_report now results)
      as Hin.
    { intros line Hline. unfold print_report. cbv zeta.
      apply elem_of_app. right. apply elem_of_app. left.
      apply list_elem_of_In, in_flat_map. exists r.
      split; by apply list_elem_of_In. }
    split; apply Hin; unfold print_result; apply elem_of_app; left.
    + destruct (passed r); by left.
    + right. by left.
Qed.

(** ** The exported report *)

(** X2. In the exported summary the passed and failed counts add up to
    [total_checks], which is the number of results; [failed] is 0 exactly
    when every result passed; and the exported entries are the results in
    order, one entry each. *)
Theorem report_dict_summary now results :
  let report := report_dict now results in
  (summary_passed report + summary_failed report)%nat
  = summary_total_checks report
  ∧ summary_total_checks report = length results
  ∧ length (report_results report) = length results
  ∧ (summary_failed report = 0%nat ↔ ∀ r, r ∈ results → passed r = true)
  ∧ (∀ i r, results !! i = Some r →
       report_results report !! i
       = Some (mkReportEntry (check_name r) (passed r) (message r))).
Proof.
  cbn. split; [apply counts_add_up|]. split; [done|].
  split; [by rewrite length_map|].
  split; [by rewrite failed_count_zero_iff, all_passed_iff|].
  intros i r Hi. by rewrite list_lookup_fmap, Hi.
Qed.

(** ** What the exit code says *)

Lemma main_exits_inv source_conn target_conn output_file (code : Z) :
  main (Some source_conn) (Some target_conn) output_file = SystemExit code ↔
  ∃ results,
    run_all_validations source_conn target_conn [] = Ok results
    ∧ match output_file with
      | Some f => f = "" ∨ export_report results f = Ok ()
      | None => True
      end
    ∧ q_close source_conn = Ok ()
    ∧ q_close target_conn = Ok ()
    ∧ code = (if forallb passed results then 0 else 1).
Proof.
  unfold main, try_finally.
  destruct (run_all_validations source_conn target_conn []) as [results|e].
  2: { cbn [mbind result_bind]. split.
       - by destruct (_ ≫= _).
       - by intros (results & [=] & _). }
  cbn [mbind result_bind]. split.
  - intros H. exists results. split; [done|].
    destruct (q_close source_conn) as [[]|e]; [|done].
    destruct (q_close target_conn) as [[]|e]; [|done].
    cbn [mbind result_bind] in H.
    destruct output_file as [f|]; [case_bool_decide as Hf|].
    + destruct (export_report results f) as [[]|e]; cbn in H; [|done].
      split; [by right|]. split; [done|]. split; [done|]. congruence.
    + cbn in H. split; [left; by destruct (decide (f = ""))|].
      split; [done|]. split; [done|]. congruence.
    + cbn in H. split; [done|]. split; [done|]. split; [done|]. congruence.
  - intros (results' & Heq & Hout & Hc1 & Hc2 & Hcode).
    injection Heq as <-. rewrite Hc1, Hc2. subst code.
    cbn [mbind result_bind].
    destruct output_file as [f|]; [case_bool_decide as Hf|]; [|done|done].
    destruct Hout as [Hf'|Hf']; [done|]. by rewrite Hf'.
Qed.

(** X3. [main] ends with exit status 0 only when both connections were
    made, the run left five results that all passed, the export (when one
    was asked for) and both [close] calls went through; in every other case
    the status is not 0. *)
Theorem main_exit_zero_iff source_conn target_conn output_file :
  exit_status (main source_conn target_conn output_file) = 0 ↔
  ∃ sc tc results,
    source_conn = Some sc ∧ target_conn = Some tc
    ∧ run_all_validations sc tc [] = Ok results
    ∧ length results = 5%nat
    ∧ (∀ r, r ∈ results → passed r = true)
    ∧ match output_file with
      | Some f => f = "" ∨ export_report results f = Ok ()
      | None => True
      end
    ∧ q_close sc = Ok () ∧ q_close tc = Ok ().
Proof.
  split.
  - intros Hexit.
    destruct source_conn as [sc|]; [|done].
    destruct target_conn as [tc|].
    2: { cbn in Hexit. by destruct (q_close sc). }
    destruct (main (Some sc) (Some tc) output_file) as [code|e] eqn:Hmain;
      [|done].
    cbn in Hexit. subst code.
    apply main_exits_inv in Hmain
      as (results & Hrun & Hout & Hc1 & Hc2 & Hcode).
    exists sc, tc, results. repeat split; try done.
    + destruct (run_all_validations_appends sc tc)
        as (r1 & r2 & r3 & r4 & r5 & Hall & _).
      rewrite Hall in Hrun. by injection Hrun as <-.
    + apply all_passed_iff. by destruct (forallb passed results).
  - intros (sc & tc & results & -> & -> & Hrun & _ & Hall & Hout & Hc1 & Hc2).
    assert (main (Some sc) (Some tc) output_file = SystemExit 0) as ->; [|done].
    apply main_exits_inv. exists results. repeat split; try done.
    apply all_passed_iff in Hall. by rewrite Hall.
Qed.

Lemma success_line_not_in_result (r : ValidationResult) :
  "✓ MIGRATION VALIDATED SUCCESSFULLY" ∉ print_result r.
Proof.
  unfold print_result. intros Hin. apply elem_of_app in Hin as [Hin|Hin].
  - apply elem_of_cons in Hin as [Heq|Hin]; [discriminate Heq|].
    apply elem_of_cons in Hin as [Heq|Hin]; [discriminate Heq|].
    by apply elem_of_nil in Hin.
  - destruct (source_value r) as [|items]; [by apply elem_of_nil in Hin|].
    apply list_elem_of_fmap in Hin as (item & Heq & _). discriminate Heq.
Qed.

Lemma success_line_printed_iff now results :
  "✓ MIGRATION VALIDATED SUCCESSFULLY" ∈ print_report now results
  ↔ forallb passed results = true.
Proof.
  unfold print_report. cbv zeta.
  assert (bool_decide (passed_count results = length results)
          = forallb passed results) as ->.
  { destruct (forallb passed results) eqn:Hall.
    - by apply bool_decide_eq_true, passed_count_total_iff.
    - apply bool_decide_eq_false. rewrite passed_count_total_iff.
      by rewrite Hall. }
  split.
  - intros Hin. apply elem_of_app in Hin as [Hin|Hin].
    { repeat (apply elem_of_cons in Hin as [Heq|Hin]; [discriminate Heq|]).
      by apply elem_of_nil in Hin. }
    apply elem_of_app in Hin as [Hin|Hin].
    { apply list_elem_of_In, in_flat_map in Hin as (r & _ & Hin).
      apply list_elem_of_In in Hin. by apply success_line_not_in_result in Hin. }
    apply elem_of_cons in Hin as [Heq|Hin]; [discriminate Heq|].
    apply elem_of_cons in Hin as [Heq|Hin]; [discriminate Heq|].
    apply elem_of_cons in Hin as [Heq|Hin].
    { by destruct (forallb passed results). }
    apply elem_of_cons in Hin as [Heq|Hin]; [discriminate Heq|].
    by apply elem_of_nil in Hin.
  - intros ->. apply elem_of_app. right. apply elem_of_app. right.
    do 2 right. by left.
Qed.

(** X4. The exit code, the printed verdict and the exported summary agree:
    when the run ends in [sys.exit], the code is 0 exactly when the report
    prints VALIDATED SUCCESSFULLY, and exactly when the exported summary has
    [failed] = 0; the summary then counts five checks. *)
Theorem exit_code_agrees_with_report
    source_conn target_conn output_file (code : Z) now :
  main (Some source_conn) (Some target_conn) output_file = SystemExit code →
  ∃ results,
    run_all_validations source_conn target_conn [] = Ok results
    ∧ (code = 0
       ↔ "✓ MIGRATION VALIDATED SUCCESSFULLY" ∈ print_report now results)
    ∧ (code = 0 ↔ summary_failed (report_dict now results) = 0%nat)
    ∧ summary_total_checks (report_dict now results) = 5%nat.
Proof.
  intros Hmain.
  apply main_exits_inv in Hmain as (results & Hrun & _ & _ & _ & ->).
  exists results. split; [done|].
  rewrite success_line_printed_iff. cbn [summary_failed report_dict].
  rewrite failed_count_zero_iff. cbn [summary_total_checks].
  split; [|split].
  - by destruct (forallb passed results).
  - by destruct (forallb passed results).
  - destruct (run_all_validations_appends source_conn target_conn)
      as (r1 & r2 & r3 & r4 & r5 & Hall & _).
    rewrite Hall in Hrun. by injection Hrun as <-.
Qed.

End Report.

Section Checks.
Context `{RT : Runtime}.
Implicit Types (source_conn target_conn : Conn) (rs : list ValidationResult).
Implicit Types (table e : string) (ts : list string).

(** ** The result of a per-table check, from its loop body *)

Lemma validate_row_counts_lines source_conn target_conn ts :
  get_tables source_conn = Ok ts →
  Forall (one_line (row_counts_body source_conn target_conn)) ts →
  ∀ rs,
    validate_row_counts source_conn target_conn rs
    = Ok (rs ++ [mkResult "Row Counts"
                   (forallb (verdict (row_counts_body source_conn target_conn)) ts)
                   (VList (map (detail (row_counts_body source_conn target_conn)) ts))
                   VNone
                   (if forallb (verdict (row_counts_body source_conn target_conn)) ts
                    then "All row counts match"
                    else "Row count mismatch detected")]).
Proof.
  intros Ht Hall rs. unfold validate_row_counts. rewrite Ht.
  cbn [mbind result_bind]. by rewrite loop_from_start.
Qed.

Lemma validate_schemas_lines source_conn target_conn ts :
  get_tables source_conn = Ok ts →
  Forall (one_line (schemas_body source_conn target_conn)) ts →
  ∀ rs,
    validate_schemas source_conn target_conn rs
    = Ok (rs ++ [mkResult "Schema Structure"
                   (forallb (verdict (schemas_body source_conn target_conn)) ts)
                   (VList (map (detail (schemas_body source_conn target_conn)) ts))
                   VNone
                   (if forallb (verdict (schemas_body source_conn target_conn)) ts
                    then "All schemas match"
                    else "Schema differences detected")]).
Proof.
  intros Ht Hall rs. unfold validate_schemas. rewrite Ht.
  cbn [mbind result_bind]. by rewrite loop_from_start.
Qed.

Lemma validate_constraints_lines source_conn target_conn ts :
  get_tables source_conn = Ok ts →
  Forall (one_line (constraints_body source_conn target_conn)) ts →
  ∀ rs,
    validate_constraints source_conn target_conn rs
    = Ok (rs ++ [mkResult "Constraints"
                   (forallb (verdict (constraints_body source_conn target_conn)) ts)
                   (VList (map (detail (constraints_body source_conn target_conn)) ts))
                   VNone
                   (if forallb (verdict (constraints_body source_conn target_conn)) ts
                    then "All constraints present"
                    else "Missing constraints detected")]).
Proof.
  intros Ht Hall rs. unfold validate_constraints. rewrite Ht.
  cbn [mbind result_bind]. by rewrite loop_from_start.
Qed.

Lemma validate_data_integrity_lines source_conn target_conn sample_size ts :
  get_tables source_conn = Ok ts →
  ∀ rs,
    validate_data_integrity source_conn target_conn sample_size rs
    = Ok (rs ++ [mkResult "Data Integrity"
                   (forallb (verdict (data_integrity_body source_conn target_conn
                                        sample_size)) ts)
                   (VList (map (detail (data_integrity_body source_conn
                                          target_conn sample_size)) ts))
                   VNone
                   (if forallb (verdict (data_integrity_body source_conn
                                           target_conn sample_size)) ts
                    then "Data integrity verified"
                    else "Data integrity issues detected")]).
Proof.
  intros Ht rs. unfold validate_data_integrity. rewrite Ht.
  cbn [mbind result_bind]. rewrite loop_from_start; [done|].
  apply Forall_forall. intros t _. apply data_integrity_body_returns.
Qed.

Lemma data_integrity_body_digests source_conn target_conn sample_size table a b :
  get_data_checksum source_conn table sample_size = Ok a →
  get_data_checksum target_conn table sample_size = Ok b →
  verdict (data_integrity_body source_conn target_conn sample_size) table
  = bool_decide (a = b)
  ∧ detail (data_integrity_body source_conn target_conn sample_size) table
    = (if bool_decide (a = b) then check_mark else cross_mark)
        +:+ " " +:+ table +:+ ": " +:+ substring 0 8 a +:+ "... vs "
        +:+ substring 0 8 b +:+ "...".
Proof.
  intros Ha Hb. unfold verdict, detail, data_integrity_body.
  rewrite Ha, Hb. cbn [mbind result_bind try_except].
  by destruct (bool_decide (a = b)).
Qed.

(** When every check returns, so does the run, with their five results. *)
Lemma run_all_validations_ok source_conn target_conn r1 r2 r3 r4 r5 :
  (∀ rs, validate_table_existence source_conn target_conn rs = Ok (rs ++ [r1])) →
  (∀ rs, validate_row_counts source_conn target_conn rs = Ok (rs ++ [r2])) →
  (∀ rs, validate_schemas source_conn target_conn rs = Ok (rs ++ [r3])) →
  (∀ rs, validate_constraints source_conn target_conn rs = Ok (rs ++ [r4])) →
  (∀ rs, validate_data_integrity source_conn target_conn 1000 rs
         = Ok (rs ++ [r5])) →
  ∀ rs, run_all_validations source_conn target_conn rs
        = Ok (rs ++ [r1; r2; r3; r4; r5]).
Proof.
  intros H1 H2 H3 H4 H5 rs. unfold run_all_validations, validations.
  cbn [for_in]. rewrite H1. cbn [try_except mbind result_bind].
  rewrite H2. cbn [try_except mbind result_bind].
  rewrite H3. cbn [try_except mbind result_bind].
  rewrite H4. cbn [try_except mbind result_bind].
  rewrite H5. cbn [try_except mbind result_bind for_in].
  by rewrite <- !app_assoc.
Qed.

(** ** Identical databases *)

(** X5. When the target gives the same answers as the source for the
    source's tables (the same table list, and per table the same row count,
    columns, constraints and checksum, all readable), the run yields five
    results that all pass, with the five all-clear messages. *)
Theorem identical_answers_pass source_conn target_conn rs ts :
  get_tables source_conn = Ok ts →
  get_tables target_conn = Ok ts →
  (∀ t, t ∈ ts → ∃ c, get_row_count source_conn t = Ok c
                      ∧ get_row_count target_conn t = Ok c) →
  (∀ t, t ∈ ts → ∃ s, get_table_schema source_conn t = Ok s
                      ∧ get_table_schema target_conn t = Ok s) →
  (∀ t, t ∈ ts → ∃ l, get_constraints source_conn t = Ok l
                      ∧ get_constraints target_conn t = Ok l) →
  (∀ t, t ∈ ts → ∃ d, get_data_checksum source_conn t 1000 = Ok d
                      ∧ get_data_checksum target_conn t 1000 = Ok d) →
  ∃ results,
    run_all_validations source_conn target_conn rs = Ok (rs ++ results)
    ∧ map passed results = [true; true; true; true; true]
    ∧ map message results
      = ["All " +:+ pretty (size (list_to_set ts : gset string))
           +:+ " tables present in both databases";
         "All row counts match";
         "All schemas match";
         "All constraints present";
         "Data integrity verified"].
Proof.
  intros Hs Ht Hcount Hschema Hcons Hsum.
  assert (Forall (one_line (row_counts_body source_conn target_conn)) ts) as L2.
  { apply Forall_forall. intros t Hin. destruct (Hcount t Hin) as (c & Hc & _).
    by apply (row_counts_body_returns _ target_conn _ _ Hc). }
  assert (Forall (one_line (schemas_body source_conn target_conn)) ts) as L3.
  { apply Forall_forall. intros t Hin. destruct (Hschema t Hin) as (c & Hc & _).
    by apply (schemas_body_returns _ target_conn _ _ Hc). }
  assert (Forall (one_line (constraints_body source_conn target_conn)) ts) as L4.
  { apply Forall_forall. intros t Hin. destruct (Hcons t Hin) as (c & Hc & _).
    by apply (constraints_body_returns _ target_conn _ _ Hc). }
  assert (forallb (verdict (row_counts_body source_conn target_conn)) ts = true)
    as V2.
  { apply forallb_elem_of. intros t Hin.
    destruct (Hcount t Hin) as (c & Hc & Hc').
    destruct (row_counts_body_returns _ target_conn _ _ Hc) as (_ & -> & _).
    rewrite Hc'. by apply bool_decide_eq_true. }
  assert (forallb (verdict (schemas_body source_conn target_conn)) ts = true)
    as V3.
  { apply forallb_elem_of. intros t Hin.
    destruct (Hschema t Hin) as (c & Hc & Hc').
    destruct (schemas_body_returns _ target_conn _ _ Hc) as (_ & ->).
    rewrite Hc'. by apply bool_decide_eq_true. }
  assert (forallb (verdict (constraints_body source_conn target_conn)) ts = true)
    as V4.
  { apply forallb_elem_of. intros t Hin.
    destruct (Hcons t Hin) as (c & Hc & Hc').
    destruct (constraints_body_returns _ target_conn _ _ Hc) as (_ & ->).
    rewrite Hc'. by apply bool_decide_eq_true. }
  assert (forallb (verdict (data_integrity_body source_conn target_conn 1000)) ts
          = true) as V5.
  { apply forallb_elem_of. intros t Hin.
    destruct (Hsum t Hin) as (d & Hd & Hd').
    destruct (data_integrity_body_digests _ _ _ _ _ _ Hd Hd') as (-> & _).
    by apply bool_decide_eq_true. }
  eexists. split.
  - apply run_all_validations_ok.
    + intros rs'. by apply validate_table_existence_ok.
    + by apply validate_row_counts_lines.
    + by apply validate_schemas_lines.
    + by apply validate_constraints_lines.
    + by apply validate_data_integrity_lines.
  - cbn [map passed message]. rewrite V2, V3, V4, V5.
    assert (missing_in_target (list_to_set ts) (list_to_set ts) = ∅) as Hm.
    { by apply missing_empty_iff. }
    split.
    + f_equal. apply bool_decide_eq_true. by rewrite Hm.
    + f_equal. unfold existence_message, extra_in_target.
      fold (missing_in_target (list_to_set ts) (list_to_set ts)).
      rewrite Hm. by rewrite !bool_decide_eq_false_2 by (by intros []).
Qed.

(** ** Data Integrity *)

(** X6. Data Integrity takes both digests with the same sample size.  A
    table whose two digests can be computed matches exactly when they are
    equal, and its line shows the first eight characters of each.  The
    check passes exactly when every source table has two readable, equal
    digests. *)
Theorem data_integrity_passes_iff
    source_conn target_conn (sample_size : Z) rs ts :
  get_tables source_conn = Ok ts →
  ∃ r,
    validate_data_integrity source_conn target_conn sample_size rs
    = Ok (rs ++ [r])
    ∧ check_name r = "Data Integrity"
    ∧ (passed r = true
       ↔ ∀ t, t ∈ ts →
           ∃ d, get_data_checksum source_conn t sample_size = Ok d
                ∧ get_data_checksum target_conn t sample_size = Ok d)
    ∧ message r = (if passed r then "Data integrity verified"
                   else "Data integrity issues detected")
    ∧ ∃ lines,
        source_value r = VList lines
        ∧ length lines = length ts
        ∧ ∀ i t a b,
            ts !! i = Some t →
            get_data_checksum source_conn t sample_size = Ok a →
            get_data_checksum target_conn t sample_size = Ok b →
            lines !! i
            = Some ((if bool_decide (a = b) then check_mark else cross_mark)
                      +:+ " " +:+ t +:+ ": " +:+ substring 0 8 a
                      +:+ "... vs " +:+ substring 0 8 b +:+ "...").
Proof.
  intros Ht. eexists. split; [by apply validate_data_integrity_lines|].
  cbn [check_name passed message source_value].
  split; [done|]. split; [|split; [done|]].
  - rewrite forallb_elem_of. split.
    + intros Hall t Hin. specialize (Hall t Hin).
      destruct (get_data_checksum source_conn t sample_size) as [a|e] eqn:Ha.
      2: { destruct (data_integrity_body_error _ target_conn _ _ e (or_introl Ha))
             as [Hv _]. by rewrite Hv in Hall. }
      destruct (get_data_checksum target_conn t sample_size) as [b|e] eqn:Hb.
      2: { destruct (data_integrity_body_error source_conn target_conn
                       sample_size t e) as [Hv _].
           { right. split; [by exists a|done]. }
           by rewrite Hv in Hall. }
      destruct (data_integrity_body_digests _ _ _ _ _ _ Ha Hb) as [Hv _].
      rewrite Hv in Hall. apply bool_decide_eq_true in Hall as ->.
      by exists b.
    + intros Hall t Hin. destruct (Hall t Hin) as (d & Ha & Hb).
      destruct (data_integrity_body_digests _ _ _ _ _ _ Ha Hb) as [-> _].
      by apply bool_decide_eq_true.
  - eexists. split; [done|]. split; [by rewrite length_map|].
    intros i t a b Hi Ha Hb. rewrite list_lookup_fmap, Hi. cbn.
    by destruct (data_integrity_body_digests _ _ _ _ _ _ Ha Hb) as [_ ->].
Qed.

(** ** Row Counts, one table at a time *)

(** X7. The line of a table in Row Counts depends on the answers for that
    table alone.  If the target's counts change for one table only, the
    lines of all other tables stay as they were; and if the new count of
    that table differs from the source's, the check fails. *)
Theorem row_count_lines_are_local
    source_conn target_conn (count' : string → result Z) rs ts (t0 : string) :
  get_tables source_conn = Ok ts →
  (∀ t, t ∈ ts → ∃ c, get_row_count source_conn t = Ok c) →
  (∀ t, t ≠ t0 → count' t = get_row_count target_conn t) →
  ∃ r r' lines lines',
    validate_row_counts source_conn target_conn rs = Ok (rs ++ [r])
    ∧ validate_row_counts source_conn (set_count target_conn count') rs
      = Ok (rs ++ [r'])
    ∧ source_value r = VList lines
    ∧ source_value r' = VList lines'
    ∧ length lines = length ts
    ∧ length lines' = length ts
    ∧ (∀ i t, ts !! i = Some t → t ≠ t0 → lines' !! i = lines !! i)
    ∧ (∀ c c', t0 ∈ ts → get_row_count source_conn t0 = Ok c →
               count' t0 = Ok c' → c ≠ c' → passed r' = false).
Proof.
  intros Ht Hsrc Hsame.
  assert (∀ tgt, Forall (one_line (row_counts_body source_conn tgt)) ts) as HL.
  { intros tgt. apply Forall_forall. intros t Hin.
    destruct (Hsrc t Hin) as [c Hc].
    by apply (row_counts_body_returns _ tgt _ _ Hc). }
  do 4 eexists.
  split; [by apply validate_row_counts_lines|].
  split; [by apply validate_row_counts_lines|].
  cbn [source_value passed]. split; [done|]. split; [done|].
  split; [by rewrite length_map|]. split; [by rewrite length_map|]. split.
  - intros i t Hi Hne. rewrite !list_lookup_fmap, Hi. cbn. f_equal.
    assert (t ∈ ts) as Hin by (by eapply list_elem_of_lookup_2).
    destruct (Hsrc t Hin) as [c Hc].
    destruct (row_counts_body_returns _ target_conn _ _ Hc) as (_ & _ & ->).
    destruct (row_counts_body_returns _ (set_count target_conn count') _ _ Hc)
      as (_ & _ & ->).
    unfold get_row_count, set_count. cbn [q_count].
    by rewrite (Hsame t Hne).
  - intros c c' Hin Hc Hc' Hne. apply not_true_iff_false.
    rewrite forallb_elem_of. intros Hall. specialize (Hall t0 Hin).
    destruct (row_counts_body_returns _ (set_count target_conn count') _ _ Hc)
      as (_ & Hv & _).
    rewrite Hv in Hall. unfold get_row_count, set_count in Hall.
    cbn [q_count] in Hall. rewrite Hc' in Hall.
    by apply bool_decide_eq_true in Hall.
Qed.

(** ** The lines of Schema Structure *)

Lemma size_column_types (s : list Column) :
  size (column_types s) = size (list_to_set (map col_name s) : gset string).
Proof. by rewrite <- size_dom, dom_column_types. Qed.

(** X8. The line of a table in Schema Structure.  A matching table is
    reported with the number of its distinct column names.  A mismatch is
    reported with the symmetric difference of the two sets of column names;
    when the names are the same and only a type differs, that set is
    empty. *)
Theorem schema_lines source_conn target_conn table ss :
  get_table_schema source_conn table = Ok ss →
  let target_schema := match get_table_schema target_conn table with
                       | Ok s => s
                       | Raise _ => []
                       end in
  let names := λ s : list Column, (list_to_set (map col_name s) : gset string) in
  let matches := verdict (schemas_body source_conn target_conn) table in
  let line := detail (schemas_body source_conn target_conn) table in
  (matches = true →
   line = check_mark +:+ " " +:+ table +:+ ": Schema matches ("
            +:+ pretty (size (names ss)) +:+ " columns)")
  ∧ (matches = true → NoDup (map col_name ss) →
     size (names ss) = length ss)
  ∧ (matches = false →
     line = cross_mark +:+ " " +:+ table +:+ ": Schema mismatch - diff columns: "
              +:+ repr_set ((names ss ∖ names target_schema)
                            ∪ (names target_schema ∖ names ss)))
  ∧ (matches = false → names ss = names target_schema →
     line = cross_mark +:+ " " +:+ table +:+ ": Schema mismatch - diff columns: "
              +:+ repr_set ∅).
Proof.
  intros Hs target_schema names matches line.
  assert (matches = bool_decide (column_types ss = column_types target_schema)
          ∧ line = if bool_decide (column_types ss = column_types target_schema)
                   then check_mark +:+ " " +:+ table +:+ ": Schema matches ("
                          +:+ pretty (size (names ss)) +:+ " columns)"
                   else cross_mark +:+ " " +:+ table
                          +:+ ": Schema mismatch - diff columns: "
                          +:+ repr_set ((names ss ∖ names target_schema)
                                        ∪ (names target_schema ∖ names ss)))
    as [Hm Hl].
  { unfold matches, line, verdict, detail, schemas_body.
    rewrite Hs. cbn [mbind result_bind].
    assert (try_except (get_table_schema target_conn table) (λ _, Ok [])
            = Ok target_schema) as ->.
    { unfold target_schema. by destruct (get_table_schema target_conn table). }
    cbn [mbind result_bind]. unfold names.
    rewrite <- size_column_types, <- !dom_column_types.
    by destruct (bool_decide (column_types ss = column_types target_schema)). }
  rewrite Hl, Hm. clear Hl Hm. repeat split.
  - by intros ->.
  - intros _ Hnd. unfold names. rewrite size_list_to_set by done.
    by rewrite length_map.
  - by intros ->.
  - intros -> ->. do 2 f_equal.
    rewrite (difference_diag_L (names target_schema)).
    by rewrite (left_id_L ∅ (∪)).
Qed.

(** ** Table Existence when nothing differs *)

(** X9. When source and target list the same tables, in whatever order and
    with whatever repetitions, Table Existence passes and reports the number
    of distinct source tables. *)
Theorem existence_all_present source_conn target_conn rs ls lt :
  get_tables source_conn = Ok ls →
  get_tables target_conn = Ok lt →
  (∀ t, t ∈ ls ↔ t ∈ lt) →
  ∃ r,
    validate_table_existence source_conn target_conn rs = Ok (rs ++ [r])
    ∧ passed r = true
    ∧ message r = "All " +:+ pretty (size (list_to_set ls : gset string))
                    +:+ " tables present in both databases"
    ∧ (NoDup ls → size (list_to_set ls : gset string) = length ls).
Proof.
  intros Hs Ht Hsame.
  assert ((list_to_set lt : gset string) = list_to_set ls) as Heq.
  { apply set_eq. intros t. rewrite !elem_of_list_to_set. by rewrite Hsame. }
  assert (missing_in_target (list_to_set ls) (list_to_set ls) = ∅) as Hm.
  { by apply missing_empty_iff. }
  eexists. split; [by apply validate_table_existence_ok|].
  cbn [passed message]. rewrite Heq. split; [|split].
  - apply bool_decide_eq_true. by rewrite Hm.
  - unfold existence_message, extra_in_target.
    fold (missing_in_target (list_to_set ls) (list_to_set ls)).
    rewrite Hm. by rewrite !bool_decide_eq_false_2 by (by intros []).
  - apply size_list_to_set.
Qed.

(** ** What a digest compares *)

(** X21. Each side is sampled with the statement chosen from its own
    primary-key lookup, both with the same limit.  When both samples can be
    fetched, the table matches exactly when the md5 digests of the two
    printed samples are equal; samples that print alike always match. *)
Theorem samples_decide_the_match
    source_conn target_conn (sample_size : Z) table
    (source_pk target_pk : list string) (source_rows target_rows : list Row) :
  q_primary_key source_conn table = Ok source_pk →
  q_primary_key target_conn table = Ok target_pk →
  q_select source_conn (sample_query (head source_pk) table sample_size)
  = Ok source_rows →
  q_select target_conn (sample_query (head target_pk) table sample_size)
  = Ok target_rows →
  let matches :=
    verdict (data_integrity_body source_conn target_conn sample_size) table in
  (matches = true
   ↔ md5_hexdigest (str_rows source_rows) = md5_hexdigest (str_rows target_rows))
  ∧ (str_rows source_rows = str_rows target_rows → matches = true).
Proof.
  intros Hspk Htpk Hs Ht matches.
  assert (get_data_checksum source_conn table sample_size
          = Ok (md5_hexdigest (str_rows source_rows))) as Ha.
  { unfold get_data_checksum. rewrite Hspk. cbn [mbind result_bind].
    by rewrite Hs. }
  assert (get_data_checksum target_conn table sample_size
          = Ok (md5_hexdigest (str_rows target_rows))) as Hb.
  { unfold get_data_checksum. rewrite Htpk. cbn [mbind result_bind].
    by rewrite Ht. }
  destruct (data_integrity_body_digests _ _ _ _ _ _ Ha Hb) as [Hv _].
  unfold matches. rewrite Hv, bool_decide_eq_true.
  split; [done|]. by intros ->.
Qed.

(** ** What the run does not read *)

(** X10. The target's own table list is read by Table Existence only:
    whatever tables the target lists, the results of Row Counts, Schema
    Structure, Constraints and Data Integrity are the same. *)
Theorem target_table_list_is_read_by_existence_only
    source_conn target_conn rs (tables : list string) :
  ∃ r1 r1' r2 r3 r4 r5,
    run_all_validations source_conn target_conn rs
    = Ok (rs ++ [r1; r2; r3; r4; r5])
    ∧ run_all_validations source_conn (set_tables target_conn (Ok tables)) rs
      = Ok (rs ++ [r1'; r2; r3; r4; r5]).
Proof.
  destruct (guarded_step _ _ (one_result_table_existence source_conn target_conn))
    as (r1 & _ & S1 & _).
  destruct (guarded_step _ _
              (one_result_table_existence source_conn
                 (set_tables target_conn (Ok tables))))
    as (r1' & _ & S1' & _).
  destruct (guarded_step _ _ (one_result_row_counts source_conn target_conn))
    as (r2 & _ & S2 & _).
  destruct (guarded_step _ _ (one_result_schemas source_conn target_conn))
    as (r3 & _ & S3 & _).
  destruct (guarded_step _ _ (one_result_constraints source_conn target_conn))
    as (r4 & _ & S4 & _).
  destruct (guarded_step _ _
              (one_result_data_integrity source_conn target_conn 1000))
    as (r5 & _ & S5 & _).
  exists r1, r1', r2, r3, r4, r5.
  unfold run_all_validations, validations. cbn [for_in].
  change (validate_row_counts source_conn (set_tables target_conn (Ok tables)))
    with (validate_row_counts source_conn target_conn).
  change (validate_schemas source_conn (set_tables target_conn (Ok tables)))
    with (validate_schemas source_conn target_conn).
  change (validate_constraints source_conn (set_tables target_conn (Ok tables)))
    with (validate_constraints source_conn target_conn).
  change (validate_data_integrity source_conn (set_tables target_conn (Ok tables)))
    with (validate_data_integrity source_conn target_conn).
  rewrite S1, S1'. cbn [mbind result_bind].
  rewrite !S2. cbn [mbind result_bind]. rewrite !S3. cbn [mbind result_bind].
  rewrite !S4. cbn [mbind result_bind]. rewrite !S5.
  cbn [mbind result_bind for_in]. by rewrite <- !app_assoc.
Qed.

End Checks.

(** * Where the validator connects *)

Section Configuration.
Implicit Types (args : Args) (tf : TerraformRun).

Lemma py_get_dict members key default_value :
  py_get (JDict members) key default_value
  = Ok (default default_value (dict_lookup members key)).
Proof. done. Qed.

Lemma py_get_ok_iff v key default_value :
  (∃ x, py_get v key default_value = Ok x) ↔ is_dict v.
Proof.
  split.
  - intros [x Hx]. destruct v; try discriminate Hx. by eexists.
  - intros [members ->]. by eexists.
Qed.

Lemma overlay_dict members (flags : ConnectionInfo) :
  overlay (JDict members) flags
  = Ok (mkConnectionInfo
          (default (ci_host flags) (dict_lookup members "host"))
          (default (ci_port flags) (dict_lookup members "port"))
          (default (ci_database flags) (dict_lookup members "database"))
          (default (ci_username flags) (dict_lookup members "username"))).
Proof. done. Qed.

Lemma overlay_ok_iff v (flags : ConnectionInfo) :
  (∃ x, overlay v flags = Ok x) ↔ is_dict v.
Proof.
  split.
  - intros [x Hx]. destruct v; try discriminate Hx. by eexists.
  - intros [members ->]. by eexists.
Qed.

(** X11. The flags are used as they are when Terraform is not asked, that
    is without [--use-terraform] and with a host flag given, whatever
    Terraform would have answered; and also when Terraform is asked and ends
    with a non-zero exit, prints something that is not JSON, or has no
    outputs. *)
Theorem connection_flags_are_used args tf :
  (consults_terraform args = false →
   resolve_connection_info args tf = Ok (source_flags args, target_flags args))
  ∧ ((∃ e, tf = TfCalledProcessError e) ∨ (∃ e, tf = TfJSONDecodeError e)
     ∨ tf = TfParsed (JDict []) →
     resolve_connection_info args tf = Ok (source_flags args, target_flags args)).
Proof.
  unfold consults_terraform, resolve_connection_info. split.
  - by intros ->.
  - intros [[e ->]|[[e ->]| ->]];
      by destruct (arg_use_terraform args || _).
Qed.

(** X12. When Terraform is asked and its outputs hold the dicts
    [connection_info], [source] and [target] (a missing one counts as
    empty), each of host, port, database and username found there replaces
    the flag, also a flag given on the command line, and each one not found
    keeps the value of the flag; source and target are resolved apart. *)
Theorem terraform_values_replace_flags
    args outputs values conn_info source_info target_info :
  consults_terraform args = true →
  output_values outputs = Ok values →
  values ≠ [] →
  default (JDict []) (dict_lookup values "connection_info") = JDict conn_info →
  default (JDict []) (dict_lookup conn_info "source") = JDict source_info →
  default (JDict []) (dict_lookup conn_info "target") = JDict target_info →
  let pick := λ (info : list (string * json)) (key : string) (flag : json),
                default flag (dict_lookup info key) in
  resolve_connection_info args (TfParsed outputs)
  = Ok (mkConnectionInfo
          (pick source_info "host" (opt_json (arg_source_host args)))
          (pick source_info "port" (JInt (arg_source_port args)))
          (pick source_info "database" (JStr (arg_source_database args)))
          (pick source_info "username" (JStr (arg_source_username args))),
        mkConnectionInfo
          (pick target_info "host" (opt_json (arg_target_host args)))
          (pick target_info "port" (JInt (arg_target_port args)))
          (pick target_info "database" (JStr (arg_target_database args)))
          (pick target_info "username" (JStr (arg_target_username args)))).
Proof.
  unfold consults_terraform, resolve_connection_info.
  intros Hasked Hvalues Hne Hci Hs Ht. rewrite Hasked.
  cbn [get_terraform_outputs]. rewrite Hvalues. cbn [mbind result_bind].
  destruct values as [|kv values]; [done|].
  rewrite py_get_dict, Hci. cbn [mbind result_bind].
  rewrite !py_get_dict, Hs, Ht. cbn [mbind result_bind].
  by rewrite !overlay_dict.
Qed.

Lemma output_values_of_ok_iff members :
  (∃ values, output_values_of members = Ok values)
  ↔ Forall (λ kv, is_dict kv.2) members.
Proof.
  induction members as [|[k v] members IH]; cbn.
  - split; [done|]. by eexists.
  - rewrite Forall_cons. cbn. rewrite <- IH. split.
    + intros [values Hv]. destruct v; try discriminate Hv. cbn in Hv.
      split; [by eexists|].
      destruct (output_values_of members); [by eexists|discriminate Hv].
    + intros [[m ->] [values ->]]. by eexists.
Qed.

(** X13. Which Terraform answers the validator survives.  When Terraform is
    asked, the connection info is resolved exactly in these cases: a
    non-zero exit, output that is not JSON, or outputs that form a dict of
    dicts which is empty or whose [connection_info], [source] and [target]
    (each empty when missing) are dicts.  Any other failure of the lookup,
    such as a missing terraform binary, is raised with its own message. *)
Theorem terraform_answers_survived args tf :
  consults_terraform args = true →
  ((∃ infos, resolve_connection_info args tf = Ok infos)
   ↔ (∃ e, tf = TfCalledProcessError e) ∨ (∃ e, tf = TfJSONDecodeError e)
     ∨ ∃ members values,
         tf = TfParsed (JDict members)
         ∧ Forall (λ kv, is_dict kv.2) members
         ∧ output_values_of members = Ok values
         ∧ (values = []
            ∨ ∃ conn_info,
                default (JDict []) (dict_lookup values "connection_info")
                = JDict conn_info
                ∧ is_dict (default (JDict []) (dict_lookup conn_info "source"))
                ∧ is_dict (default (JDict []) (dict_lookup conn_info "target"))))
  ∧ (∀ e, tf = TfOtherError e → resolve_connection_info args tf = Raise e).
Proof.
  unfold consults_terraform, resolve_connection_info.
  intros Hasked. rewrite Hasked. split.
  2: { by intros e ->. }
  destruct tf as [e|e|e|outputs]; cbn [get_terraform_outputs mbind result_bind].
  - split; [intros _; left; by exists e|by eexists].
  - split; [intros _; right; left; by exists e|by eexists].
  - split; [by intros [infos ?]|].
    intros [[e' ?]|[[e' ?]|(m & v & ? & _)]]; discriminate.
  - destruct outputs as [| | | | | |members]; cbn [output_values];
      try (split; [by intros [infos ?]|];
           intros [[e' ?]|[[e' ?]|(m & v & ? & _)]]; discriminate).
    destruct (output_values_of members) as [values|e] eqn:Hvalues;
      cbn [mbind result_bind].
    2: { split; [by intros [infos ?]|].
         intros [[e' ?]|[[e' ?]|(m & v & Heq & _ & Hv & _)]]; try discriminate.
         injection Heq as <-. rewrite Hv in Hvalues. discriminate. }
    assert (Forall (λ kv, is_dict kv.2) members) as Hdicts.
    { apply output_values_of_ok_iff. by exists values. }
    destruct values as [|kv values].
    { split; [|by eexists]. intros _. right. right.
      exists members, []. repeat split; try done. by left. }
    rewrite py_get_dict. cbn [mbind result_bind].
    set (ci := default (JDict []) (dict_lookup (kv :: values) "connection_info")).
    split.
    + intros [infos Hinfos]. right. right. exists members, (kv :: values).
      repeat split; try done. right.
      destruct ci as [| | | | | |conn_info] eqn:Hci; try discriminate Hinfos.
      exists conn_info. split; [done|].
      rewrite !py_get_dict in Hinfos. cbn [mbind result_bind] in Hinfos.
      destruct (overlay (default (JDict []) (dict_lookup conn_info "source")) _)
        as [x|e] eqn:Hx; [|discriminate Hinfos].
      cbn [mbind result_bind] in Hinfos.
      destruct (overlay (default (JDict []) (dict_lookup conn_info "target")) _)
        as [y|e] eqn:Hy; [|discriminate Hinfos].
      split; eapply overlay_ok_iff; by eexists.
    + intros [[e' ?]|[[e' ?]|(m & v & Heq & _ & Hv & Hcases)]]; try discriminate.
      injection Heq as <-. rewrite Hv in Hvalues. injection Hvalues as ->.
      destruct Hcases as [?|(conn_info & Hci & [s Hs] & [t Ht])]; [done|].
      unfold ci. rewrite Hci, !py_get_dict, Hs, Ht. cbn [mbind result_bind].
      rewrite !overlay_dict. by eexists.
Qed.

(** X14. The passwords.  A non-empty [--source-password] is used as it is;
    without one, a non-empty SOURCE_DB_PASSWORD is; without either, the
    answer to the prompt is, and a prompt that fails fails the resolution.
    An empty flag counts as no flag.  The target password is the non-empty
    flag, else the non-empty TARGET_DB_PASSWORD, else the source password
    as resolved: it is never prompted for. *)
Theorem password_resolution args (env_source env_target : option string)
    (input : result string) :
  let chosen := λ (flag env : option string),
                  if truthy flag then flag
                  else if truthy env then env else None in
  let target_of := λ source_password : string,
                     default source_password
                       (chosen (arg_target_password args) env_target) in
  (∀ s, chosen (arg_source_password args) env_source = Some s →
        s ≠ ""
        ∧ resolve_passwords args env_source env_target input
          = Ok (s, target_of s))
  ∧ (chosen (arg_source_password args) env_source = None →
     resolve_passwords args env_source env_target input
     = (s ← input; Ok (s, target_of s))).
Proof.
  intros chosen target_of.
  assert (∀ flag env,
            truthy (py_or flag env) = bool_decide (is_Some (chosen flag env))
            ∧ (truthy (py_or flag env) = true →
               py_or flag env = chosen flag env)) as Hchosen.
  { intros flag env. unfold chosen, py_or.
    destruct (truthy flag) eqn:Hf.
    - rewrite Hf. split; [|done]. symmetry. apply bool_decide_eq_true.
      destruct flag; [by eexists|discriminate Hf].
    - destruct (truthy env) eqn:He; [|by split].
      split; [|done]. symmetry. apply bool_decide_eq_true.
      destruct env; [by eexists|discriminate He]. }
  assert (∀ s, (if negb (truthy (py_or (arg_target_password args) env_target))
                then s
                else default "" (py_or (arg_target_password args) env_target))
               = target_of s) as Htarget.
  { intros s. unfold target_of.
    destruct (Hchosen (arg_target_password args) env_target) as [Ht Hv].
    destruct (truthy (py_or (arg_target_password args) env_target)) eqn:Htruthy.
    - rewrite (Hv eq_refl). symmetry in Ht. apply bool_decide_eq_true in Ht.
      by destruct Ht as [x ->].
    - symmetry in Ht. apply bool_decide_eq_false in Ht.
      by destruct (chosen (arg_target_password args) env_target) as [x|];
        [destruct Ht; by eexists|]. }
  destruct (Hchosen (arg_source_password args) env_source) as [Hs Hv].
  unfold resolve_passwords. cbv zeta. split.
  - intros s Hsome. rewrite Hsome in Hs.
    rewrite bool_decide_eq_true_2 in Hs by (by eexists).
    rewrite Hs. cbn [negb mbind result_bind]. rewrite (Hv Hs), Hsome. cbn.
    rewrite Htarget. split; [|done].
    rewrite (Hv Hs) in Hs. rewrite Hsome in Hs. cbn in Hs.
    by apply bool_decide_eq_true in Hs.
  - intros Hnone. rewrite Hnone in Hs.
    rewrite bool_decide_eq_false_2 in Hs by (by intros [x ?]).
    rewrite Hs. cbn [negb]. destruct input as [s|e]; cbn [mbind result_bind].
    + by rewrite Htarget.
    + done.
Qed.

End Configuration.

(** * The population script *)

Module PopulateFacts.
Import Populate.

Implicit Types (args : Args) (w : World) (conn : Database).

(** ** Sequencing *)

Lemma events_bind {A B} (r : Run A) (k : A → Run B) :
  events (r ≫= k)
  = events r ++ match ending r with
                | Returns a => events (k a)
                | _ => []
                end.
Proof.
  unfold mbind, run_bind. destruct (ending r); cbn; by rewrite ?app_nil_r.
Qed.

Lemma ending_bind {A B} (r : Run A) (k : A → Run B) :
  ending (r ≫= k)
  = match ending r with
    | Returns a => ending (k a)
    | Exits code => Exits code
    | Raises msg => Raises msg
    end.
Proof. unfold mbind, run_bind. by destruct (ending r). Qed.

Lemma run_eq {A} (r : Run A) : r = mkRun (events r) (ending r).
Proof. by destruct r. Qed.

(** ** Counting the six tables *)

Lemma count_body_ok conn counts table (c : Z) :
  db_count conn table = Ok c →
  count_body conn counts table
  = mkRun [Count table] (Returns (<[table := c]> counts)).
Proof. intros H. unfold count_body. cbn. by rewrite H. Qed.

Lemma count_body_raises conn counts table e :
  db_count conn table = Raise e →
  count_body conn counts table = mkRun [Count table] (Raises e).
Proof. intros H. unfold count_body. cbn. by rewrite H. Qed.

Lemma count_loop_ok conn (ts : list string) (c : string → Z) counts :
  (∀ t, t ∈ ts → db_count conn t = Ok (c t)) →
  for_run ts counts (count_body conn)
  = mkRun (map Count ts)
      (Returns (foldl (λ m t, <[t := c t]> m) counts ts)).
Proof.
  revert counts. induction ts as [|t ts IH]; intros counts H; [done|].
  cbn [for_run]. rewrite (count_body_ok _ _ _ (c t)) by (apply H; by left).
  unfold mbind, run_bind. cbn [ending events].
  rewrite IH by (intros t' Ht'; apply H; by right). done.
Qed.

Lemma count_loop_raises conn (before after : list string) (t e : string)
    (c : string → Z) counts :
  (∀ t', t' ∈ before → db_count conn t' = Ok (c t')) →
  db_count conn t = Raise e →
  for_run (before ++ t :: after) counts (count_body conn)
  = mkRun (map Count before ++ [Count t]) (Raises e).
Proof.
  revert counts. induction before as [|t' before IH]; intros counts H He.
  - cbn [for_run app]. rewrite (count_body_raises _ _ _ _ He). done.
  - cbn [for_run app].
    rewrite (count_body_ok _ _ _ (c t')) by (apply H; by left).
    unfold mbind, run_bind. cbn [ending events].
    rewrite IH; [done| |done]. intros x Hx. apply H. by right.
Qed.

Lemma lookup_counts (ts : list string) (c : string → Z)
    (counts : gmap string Z) (t : string) :
  foldl (λ m t, <[t := c t]> m) counts ts !! t
  = if decide (t ∈ ts) then Some (c t) else counts !! t.
Proof.
  induction ts as [|x ts IH] using rev_ind.
  - cbn. by rewrite decide_False by apply not_elem_of_nil.
  - rewrite foldl_snoc. destruct (decide (x = t)) as [->|Hne].
    + rewrite lookup_insert_eq. rewrite decide_True; [done|].
      apply elem_of_app. right. by left.
    + rewrite lookup_insert_ne by done. rewrite IH.
      destruct (decide (t ∈ ts)) as [Hin|Hout].
      * rewrite decide_True; [done|]. apply elem_of_app. by left.
      * rewrite decide_False; [done|]. rewrite elem_of_app.
        intros [?|Hx%list_elem_of_singleton]; [done|]. by subst.
Qed.

(** X15. [verify_data_loaded] counts the six tables in the order of its
    list.  When every count can be read it closes the cursor and returns a
    dict with exactly those six tables, each with its count.  When a count
    fails it raises that error at once: the tables after it are not
    counted, and the cursor is not closed. *)
Theorem verify_data_loaded_counts conn (c : string → Z) :
  ((∀ t, t ∈ tables → db_count conn t = Ok (c t)) →
   ∃ counts,
     verify_data_loaded conn
     = mkRun (map Count tables ++ [CursorClose]) (Returns counts)
     ∧ dom counts = list_to_set tables
     ∧ ∀ t, t ∈ tables → counts !! t = Some (c t))
  ∧ (∀ before t after e,
       tables = before ++ t :: after →
       (∀ t', t' ∈ before → db_count conn t' = Ok (c t')) →
       db_count conn t = Raise e →
       verify_data_loaded conn
       = mkRun (map Count before ++ [Count t]) (Raises e)).
Proof.
  split.
  - intros H. eexists. split; [|split].
    + unfold verify_data_loaded.
      rewrite (count_loop_ok _ _ c) by done. reflexivity.
    + apply set_eq. intros t. rewrite elem_of_dom, lookup_counts.
      rewrite elem_of_list_to_set.
      destruct (decide (t ∈ tables)); [by split|].
      rewrite lookup_empty. split; [by intros [? ?]|done].
    + intros t Ht. rewrite lookup_counts. by rewrite decide_True.
  - intros before t after e Htables Hbefore He. unfold verify_data_loaded.
    rewrite Htables, (count_loop_raises _ _ _ _ _ c) by done. reflexivity.
Qed.

(** ** The set-up and the load *)

Lemma get_password_cases args w :
  (∃ s, get_password args w = mkRun [] (Returns s))
  ∨ (∃ s, get_password args w = mkRun [Prompt] (Returns s))
  ∨ (∃ e, get_password args w = mkRun [Prompt] (Raises e)).
Proof.
  unfold get_password.
  destruct (truthy (py_or (arg_password args) (w_env_password w))); cbn.
  - left. by eexists.
  - right. destruct (w_input w) as [s|e]; [left|right]; by eexists.
Qed.

Lemma lift_events {A} (r : result A) : events (lift r) = [].
Proof. by destruct r. Qed.

Lemma lift_ending {A} (r : result A) c : ending (lift r) ≠ Exits c.
Proof. by destruct r. Qed.

Ltac setup_events :=
  repeat match goal with
         | |- Forall _ [] => constructor
         | |- Forall _ (_ :: _) => constructor; [unfold setup_event; auto|]
         end.

Lemma events_bind_lift {A B} (r : result A) (k : A → Run B) :
  events (lift r ≫= k) = match r with
                         | Ok a => events (k a)
                         | Raise _ => []
                         end.
Proof. by destruct r. Qed.

Lemma ending_bind_lift {A B} (r : result A) (k : A → Run B) :
  ending (lift r ≫= k) = match r with
                         | Ok a => ending (k a)
                         | Raise e => Raises e
                         end.
Proof. by destruct r. Qed.

Lemma get_terraform_outputs_cases (tf : TerraformRun) :
  events (get_terraform_outputs tf) = [Terraform]
  ∧ ending (get_terraform_outputs tf)
    = match tf with
      | TfCalledProcessError _ => Exits 1
      | TfJSONDecodeError _ => Exits 1
      | TfOtherError e => Raises e
      | TfParsed outputs =>
        match output_values outputs with
        | Ok values => Returns values
        | Raise e => Raises e
        end
      end.
Proof.
  unfold get_terraform_outputs. destruct tf as [e|e|e|outputs]; cbn; try done.
  by destruct (output_values outputs).
Qed.

Lemma get_connection_info_events args w :
  Forall setup_event (events (get_connection_info args w)).
Proof.
  unfold get_connection_info.
  destruct (arg_use_terraform args || _).
  - rewrite events_bind.
    destruct (get_terraform_outputs_cases (w_terraform w)) as [-> ->].
    constructor; [by left|].
    destruct (w_terraform w) as [e|e|e|outputs]; try done.
    destruct (output_values outputs) as [values|e]; [|done].
    rewrite events_bind_lift. destruct (_ ≫= _) as [ci|e]; [|done].
    rewrite events_bind_lift. destruct (overlay _ _) as [info|e]; [|done].
    rewrite events_bind.
    destruct (get_password_cases args w) as [[s ->]|[[s ->]|[e ->]]]; cbn;
      setup_events.
  - rewrite events_bind.
    destruct (get_password_cases args w) as [[s ->]|[[s ->]|[e ->]]]; cbn;
      setup_events.
Qed.

Lemma get_connection_info_exits args w (c : Z) :
  ending (get_connection_info args w) = Exits c → c = 1.
Proof.
  unfold get_connection_info.
  destruct (arg_use_terraform args || _).
  - rewrite ending_bind.
    destruct (get_terraform_outputs_cases (w_terraform w)) as [_ ->].
    destruct (w_terraform w) as [e|e|e|outputs]; try congruence.
    destruct (output_values outputs) as [values|e]; [|done].
    rewrite ending_bind_lift. destruct (_ ≫= _) as [ci|e]; [|done].
    rewrite ending_bind_lift. destruct (overlay _ _) as [info|e]; [|done].
    rewrite ending_bind.
    by destruct (get_password_cases args w) as [[s ->]|[[s ->]|[e ->]]].
  - rewrite ending_bind.
    by destruct (get_password_cases args w) as [[s ->]|[[s ->]|[e ->]]].
Qed.

(** How [execute_sql_file] can go. *)
Lemma execute_sql_file_cases w conn sql_file :
  match w_read w sql_file with
  | Raise e => execute_sql_file w conn sql_file
               = mkRun [ReadFile sql_file] (Raises e)
  | Ok sql_content =>
    execute_sql_file w conn sql_file
    = mkRun [ReadFile sql_file; Execute sql_content; CursorClose]
        (match db_execute conn sql_content with
         | Ok _ => Returns ()
         | Raise e => Raises e
         end)
  end.
Proof.
  unfold execute_sql_file. destruct (w_read w sql_file) as [sql|e]; cbn; [|done].
  by destruct (db_execute conn sql) as [[]|e].
Qed.

Lemma count_loop_events conn (ts : list string) counts :
  Forall load_event (events (for_run ts counts (count_body conn)))
  ∧ ∀ c, ending (for_run ts counts (count_body conn)) ≠ Exits c.
Proof.
  revert counts. induction ts as [|t ts IH]; intros counts; cbn [for_run].
  - by split.
  - destruct (db_count conn t) as [c|e] eqn:Hc.
    + rewrite (count_body_ok _ _ _ _ Hc). unfold mbind, run_bind.
      cbn [ending events]. destruct (IH (<[t:=c]> counts)) as [He Hx].
      split; [|done]. cbn. by constructor.
    + rewrite (count_body_raises _ _ _ _ Hc). unfold mbind, run_bind. cbn.
      split; [by repeat constructor|done].
Qed.

Lemma verify_data_loaded_events conn :
  Forall load_event (events (verify_data_loaded conn))
  ∧ ∀ c, ending (verify_data_loaded conn) ≠ Exits c.
Proof.
  unfold verify_data_loaded.
  destruct (count_loop_events conn tables ∅) as [He Hx].
  rewrite events_bind, ending_bind. split.
  - apply Forall_app. split; [done|].
    destruct (ending (for_run tables ∅ (count_body conn))); cbn;
      by repeat constructor.
  - intros c. by destruct (ending (for_run tables ∅ (count_body conn))) eqn:H.
Qed.

Lemma load_events w conn sql_file :
  Forall load_event (events (load w conn sql_file))
  ∧ ∀ c, ending (load w conn sql_file) ≠ Exits c.
Proof.
  unfold load. rewrite events_bind, ending_bind.
  pose proof (execute_sql_file_cases w conn sql_file) as Hexec.
  destruct (verify_data_loaded_events conn) as [Hv Hvx].
  destruct (w_read w sql_file) as [sql|e]; rewrite Hexec; cbn [events ending].
  2: { split; [by repeat constructor|done]. }
  destruct (db_execute conn sql) as [[]|e].
  2: { split; [by repeat constructor|done]. }
  rewrite events_bind, ending_bind. split.
  - repeat constructor. apply Forall_app. split; [done|].
    by destruct (ending (verify_data_loaded conn)).
  - intros c. destruct (ending (verify_data_loaded conn)) eqn:H; cbn;
      [done| |done]. by destruct (Hvx code).
Qed.

(** [main], case by case. *)
Lemma main_cases args w :
  let setup := get_connection_info args w in
  match ending setup with
  | Exits c => main args w = mkRun (events setup) (Exits c)
  | Raises e => main args w = mkRun (events setup) (Raises e)
  | Returns (info, password) =>
    if w_exists w (sql_file_path args w) then
      match w_connect w info password with
      | None => main args w = mkRun (events setup ++ [Connect]) (Exits 1)
      | Some conn =>
        main args w
        = mkRun (events setup ++ Connect
                   :: events (load w conn (sql_file_path args w)) ++ [Close])
            (match db_close conn with
             | Ok _ =>
               match ending (load w conn (sql_file_path args w)) with
               | Returns _ => Returns ()
               | Exits c => Exits c
               | Raises e => Raises e
               end
             | Raise e => Raises e
             end)
      end
    else main args w = mkRun (events setup) (Exits 1)
  end.
Proof.
  intros setup.
  assert (∀ k : ConnectionInfo * string → Run unit,
            setup ≫= k
            = match ending setup with
              | Returns a => mkRun (events setup ++ events (k a)) (ending (k a))
              | Exits c => mkRun (events setup) (Exits c)
              | Raises e => mkRun (events setup) (Raises e)
              end) as Hbind by done.
  unfold main. fold setup. rewrite Hbind. clear Hbind.
  destruct (ending setup) as [[info password]|c|e]; [|done|done].
  destruct (w_exists w (sql_file_path args w)); cbn [negb].
  2: { cbn. by rewrite app_nil_r. }
  unfold connect_to_database.
  destruct (w_connect w info password) as [conn|].
  2: { cbn. by rewrite ?app_nil_r. }
  destruct (load w conn (sql_file_path args w)) as [levs lend] eqn:Hload.
  cbn -[load]. rewrite Hload.
  destruct (db_close conn) as [[]|e]; cbn.
  - destruct lend; cbn; rewrite ?app_nil_r, <- ?app_assoc; cbn; done.
  - rewrite ?app_nil_r, <- ?app_assoc; cbn; done.
Qed.

(** X16. When the SQL file does not exist the script stops with exit
    status 1 before it touches the database: it neither connects nor reads
    the file, and whatever it did was asking Terraform or prompting. *)
Theorem missing_sql_file_stops_before_connecting args w :
  w_exists w (sql_file_path args w) = false →
  status (main args w) = 1
  ∧ Forall setup_event (events (main args w)).
Proof.
  intros Hmissing. pose proof (main_cases args w) as Hmain. cbv zeta in Hmain.
  pose proof (get_connection_info_events args w) as Hevents.
  pose proof (get_connection_info_exits args w) as Hexits.
  destruct (ending (get_connection_info args w)) as [[info password]|c|e].
  - rewrite Hmissing in Hmain. by rewrite Hmain.
  - rewrite Hmain. split; [|done]. unfold status. cbn. by apply Hexits.
  - by rewrite Hmain.
Qed.

(** X17. The connection is closed exactly once when it was opened, and
    closing is the last thing the script does to the outside.  The events
    of a run are: only set-up events; or set-up events followed by a failed
    [Connect], with exit status 1; or set-up events, [Connect], events of
    the load on the open connection, and [Close] at the very end. *)
Theorem connection_is_closed_once args w :
  let evs := events (main args w) in
  Forall setup_event evs
  ∨ (∃ setup, evs = setup ++ [Connect]
              ∧ Forall setup_event setup
              ∧ ending (main args w) = Exits 1)
  ∨ (∃ setup work, evs = setup ++ Connect :: work ++ [Close]
                   ∧ Forall setup_event setup
                   ∧ Forall load_event work).
Proof.
  intros evs. unfold evs. clear evs.
  pose proof (main_cases args w) as Hmain. cbv zeta in Hmain.
  pose proof (get_connection_info_events args w) as Hevents.
  destruct (ending (get_connection_info args w)) as [[info password]|c|e].
  2, 3: left; by rewrite Hmain.
  destruct (w_exists w (sql_file_path args w)).
  2: { left. by rewrite Hmain. }
  destruct (w_connect w info password) as [conn|].
  - right. right. rewrite Hmain. cbn [events].
    exists (events (get_connection_info args w)),
           (events (load w conn (sql_file_path args w))).
    split; [done|]. split; [done|]. apply load_events.
  - right. left. rewrite Hmain. cbn [events ending].
    by exists (events (get_connection_info args w)).
Qed.

Lemma count_loop_returns_iff conn (ts : list string) counts :
  (∃ result, ending (for_run ts counts (count_body conn)) = Returns result)
  ↔ ∀ t, t ∈ ts → ∃ c, db_count conn t = Ok c.
Proof.
  revert counts. induction ts as [|t ts IH]; intros counts; cbn [for_run].
  - split; [|by eexists]. intros _ t Ht. by apply elem_of_nil in Ht.
  - destruct (db_count conn t) as [c|e] eqn:Hc.
    + rewrite (count_body_ok _ _ _ _ Hc). unfold mbind, run_bind.
      cbn [ending events]. rewrite IH. split.
      * intros H t' [->|Ht']%elem_of_cons; [by eexists|by apply H].
      * intros H t' Ht'. apply H. by right.
    + rewrite (count_body_raises _ _ _ _ Hc). unfold mbind, run_bind. cbn.
      split; [by intros [? ?]|]. intros H.
      destruct (H t) as [c Hc']; [by left|]. congruence.
Qed.

Lemma load_returns_iff w conn sql_file :
  ending (load w conn sql_file) = Returns ()
  ↔ ∃ sql_content,
      w_read w sql_file = Ok sql_content
      ∧ db_execute conn sql_content = Ok ()
      ∧ ∀ t, t ∈ tables → ∃ c, db_count conn t = Ok c.
Proof.
  unfold load. rewrite ending_bind.
  pose proof (execute_sql_file_cases w conn sql_file) as Hexec.
  destruct (w_read w sql_file) as [sql|e]; rewrite Hexec; cbn [ending].
  2: { split; [done|]. by intros (? & ? & _). }
  destruct (db_execute conn sql) as [[]|e] eqn:Hx.
  2: { split; [done|]. intros (x & Heq & Hx' & _). injection Heq as <-.
       congruence. }
  rewrite ending_bind. unfold verify_data_loaded. rewrite ending_bind.
  pose proof (count_loop_returns_iff conn tables ∅) as Hcounts.
  destruct (ending (for_run tables ∅ (count_body conn))) as [counts|c|e]; cbn.
  - split; [|done]. intros _. exists sql. split; [done|]. split; [done|].
    apply Hcounts. by eexists.
  - split; [done|]. intros (x & _ & _ & Hall). apply Hcounts in Hall as [? ?].
    discriminate.
  - split; [done|]. intros (x & _ & _ & Hall). apply Hcounts in Hall as [? ?].
    discriminate.
Qed.

(** X18. The script ends with exit status 0 exactly when the connection
    info was resolved, the SQL file exists and can be read, the connection
    was made, the SQL ran, all six tables could be counted and the
    connection could be closed. *)
Theorem populate_succeeds_iff args w :
  status (main args w) = 0
  ↔ ∃ info password conn sql_content,
      ending (get_connection_info args w) = Returns (info, password)
      ∧ w_exists w (sql_file_path args w) = true
      ∧ w_connect w info password = Some conn
      ∧ w_read w (sql_file_path args w) = Ok sql_content
      ∧ db_execute conn sql_content = Ok ()
      ∧ (∀ t, t ∈ tables → ∃ c, db_count conn t = Ok c)
      ∧ db_close conn = Ok ().
Proof.
  pose proof (main_cases args w) as Hmain. cbv zeta in Hmain.
  pose proof (get_connection_info_exits args w) as Hexits.
  destruct (ending (get_connection_info args w)) as [[info password]|c|e].
  2: { rewrite Hmain. unfold status. cbn. split.
       - intros ->. by specialize (Hexits 0 eq_refl).
       - by intros (? & ? & ? & ? & ? & _). }
  2: { rewrite Hmain. split; [done|]. by intros (? & ? & ? & ? & ? & _). }
  destruct (w_exists w (sql_file_path args w)).
  2: { rewrite Hmain. split; [done|]. by intros (? & ? & ? & ? & _ & ? & _). }
  destruct (w_connect w info password) as [conn|] eqn:Hconn.
  2: { rewrite Hmain. split; [done|].
       intros (i & p & ? & ? & Heq & _ & Hc & _). injection Heq as <- <-.
       congruence. }
  rewrite Hmain. unfold status. cbn [ending].
  pose proof (load_returns_iff w conn (sql_file_path args w)) as Hload.
  pose proof (load_events w conn (sql_file_path args w)) as [_ Hnoexit].
  split.
  - intros Hzero. exists info, password, conn.
    destruct (db_close conn) as [[]|e]; [|done].
    destruct (ending (load w conn (sql_file_path args w))) as [[]|c|e] eqn:Hl.
    + destruct Hload as [(sql & Hr & Hx & Hc) _]; [done|].
      exists sql. by repeat split.
    + by destruct (Hnoexit c).
    + done.
  - intros (i & p & conn' & sql & Heq & _ & Hc & Hread & Hexec & Hcounts & Hclose).
    injection Heq as <- <-. rewrite Hconn in Hc. injection Hc as <-.
    rewrite Hclose.
    destruct Hload as [_ ->]; [done|]. exists sql. by repeat split.
Qed.

(** X19. Tables are counted only after the SQL ran: when a run counts a
    table, the connection was made, the SQL file was read and its content
    was executed without error. *)
Theorem counts_follow_a_completed_load args w (t : string) :
  Count t ∈ events (main args w) →
  ∃ info password conn sql_content,
    ending (get_connection_info args w) = Returns (info, password)
    ∧ w_connect w info password = Some conn
    ∧ w_read w (sql_file_path args w) = Ok sql_content
    ∧ db_execute conn sql_content = Ok ()
    ∧ Execute sql_content ∈ events (main args w).
Proof.
  pose proof (main_cases args w) as Hmain. cbv zeta in Hmain.
  pose proof (get_connection_info_events args w) as Hevents.
  assert (Count t ∉ events (get_connection_info args w)) as Hsetup.
  { intros Hin. rewrite Forall_forall in Hevents.
    by destruct (Hevents _ Hin). }
  destruct (ending (get_connection_info args w)) as [[info password]|c|e].
  2, 3: by rewrite Hmain.
  destruct (w_exists w (sql_file_path args w)); [|by rewrite Hmain].
  destruct (w_connect w info password) as [conn|] eqn:Hconn.
  2: { rewrite Hmain. cbn. rewrite elem_of_app, list_elem_of_singleton.
       by intros [?|?]. }
  rewrite Hmain. cbn [events]. intros Hin.
  exists info, password, conn.
  apply elem_of_app in Hin as [Hin|Hin]; [done|].
  apply elem_of_cons in Hin as [Hin|Hin]; [done|].
  apply elem_of_app in Hin as [Hin|Hin%list_elem_of_singleton]; [|done].
  revert Hin. unfold load. rewrite events_bind.
  pose proof (execute_sql_file_cases w conn (sql_file_path args w)) as Hexec.
  destruct (w_read w (sql_file_path args w)) as [sql|e] eqn:Hread;
    rewrite Hexec; cbn [events ending].
  2: { rewrite app_nil_r, list_elem_of_singleton. done. }
  destruct (db_execute conn sql) as [[]|e] eqn:Hx.
  2: { rewrite app_nil_r. intros Hin.
       repeat (apply elem_of_cons in Hin as [Hin|Hin]; [done|]).
       by apply elem_of_nil in Hin. }
  intros _. exists sql. repeat split; try done.
  apply elem_of_app. right. right. apply elem_of_app. left.
  right. by left.
Qed.

(** X20. In the population script a failed Terraform lookup is final.
    Terraform is asked only with [--use-terraform] or when neither host nor
    password is given; when it is asked and ends with a non-zero exit or
    with output that is not JSON, the script exits with status 1 having
    done nothing else: no prompt, no connection. *)
Theorem terraform_failure_ends_population args w :
  (consults_terraform args = false → Terraform ∉ events (main args w))
  ∧ (consults_terraform args = true →
     (∃ e, w_terraform w = TfCalledProcessError e)
     ∨ (∃ e, w_terraform w = TfJSONDecodeError e) →
     main args w = mkRun [Terraform] (Exits 1)).
Proof.
  pose proof (main_cases args w) as Hmain. cbv zeta in Hmain.
  unfold consults_terraform. split.
  - intros Hno.
    assert (Forall (λ ev, ev = Prompt) (events (get_connection_info args w)))
      as Hprompt.
    { unfold get_connection_info. rewrite Hno. rewrite events_bind.
      destruct (get_password_cases args w) as [[s ->]|[[s ->]|[e ->]]]; cbn;
        by repeat constructor. }
    assert (Terraform ∉ events (get_connection_info args w)) as Hsetup.
    { intros Hin. rewrite Forall_forall in Hprompt.
      by specialize (Hprompt _ Hin). }
    destruct (ending (get_connection_info args w)) as [[info password]|c|e].
    2, 3: by rewrite Hmain.
    destruct (w_exists w (sql_file_path args w)); [|by rewrite Hmain].
    destruct (w_connect w info password) as [conn|].
    2: { rewrite Hmain. cbn. rewrite elem_of_app, list_elem_of_singleton.
         by intros [?|?]. }
    rewrite Hmain. cbn [events]. intros Hin.
    apply elem_of_app in Hin as [Hin|Hin]; [done|].
    apply elem_of_cons in Hin as [Hin|Hin]; [done|].
    apply elem_of_app in Hin as [Hin|Hin%list_elem_of_singleton]; [|done].
    destruct (load_events w conn (sql_file_path args w)) as [Hload _].
    rewrite Forall_forall in Hload. by specialize (Hload _ Hin).
  - intros Hyes Hfail.
    assert (get_connection_info args w = mkRun [Terraform] (Exits 1)) as Hsetup.
    { unfold get_connection_info. rewrite Hyes.
      by destruct Hfail as [[e ->]|[e ->]]. }
    rewrite Hsetup in Hmain. by rewrite Hmain.
Qed.

End PopulateFacts.

(** * The further properties at the examples *)

Lemma exit_code_agrees_with_report_witness :
  main (Some demo_source) (Some demo_partial) None = SystemExit 1
  ∧ ∃ results,
      run_all_validations demo_source demo_partial [] = Ok results
      ∧ (1 = 0 ↔ summary_failed (report_dict "2026-01-01T00:00:00" results)
                 = 0%nat).
Proof.
  split; [reflexivity|].
  destruct (exit_code_agrees_with_report demo_source demo_partial None 1
              "2026-01-01T00:00:00" eq_refl)
    as (results & Hrun & _ & Hfailed & _).
  exists results. split; [exact Hrun|exact Hfailed].
Defined.

Lemma identical_answers_pass_witness :
  get_tables demo_source = Ok ["audit"; "orders"]
  ∧ ∃ results,
      run_all_validations demo_source demo_source [] = Ok ([] ++ results)
      ∧ map passed results = [true; true; true; true; true].
Proof.
  split; [reflexivity|].
  destruct (identical_answers_pass demo_source demo_source []
              ["audit"; "orders"] eq_refl eq_refl)
    as (results & Hrun & Hpassed & _).
  - intros t _. eexists. split; reflexivity.
  - intros t _. eexists. split; reflexivity.
  - intros t _. eexists. split; reflexivity.
  - intros t _. eexists. split; reflexivity.
  - exists results. split; [exact Hrun|exact Hpassed].
Defined.

Lemma data_integrity_passes_iff_witness :
  get_tables demo_source = Ok ["audit"; "orders"]
  ∧ ∃ r,
      validate_data_integrity demo_source demo_partial 50 [] = Ok ([] ++ [r])
      ∧ message r = (if passed r then "Data integrity verified"
                     else "Data integrity issues detected").
Proof.
  split; [reflexivity|].
  destruct (data_integrity_passes_iff demo_source demo_partial 50 []
              ["audit"; "orders"] eq_refl)
    as (r & Hr & _ & _ & Hm & _).
  exists r. split; [exact Hr|exact Hm].
Defined.

Lemma row_count_lines_are_local_witness :
  get_tables demo_source = Ok ["audit"; "orders"]
  ∧ ∃ r' lines',
      validate_row_counts demo_source
        (set_count demo_source
           (λ t, if bool_decide (t = "orders") then Ok 7 else q_count demo_source t))
        []
      = Ok ([] ++ [r'])
      ∧ source_value r' = VList lines'
      ∧ passed r' = false.
Proof.
  split; [reflexivity|].
  destruct (row_count_lines_are_local demo_source demo_source
              (λ t, if bool_decide (t = "orders") then Ok 7
                    else q_count demo_source t)
              [] ["audit"; "orders"] "orders" eq_refl)
    as (r & r' & lines & lines' & _ & Hr' & _ & Hl' & _ & _ & _ & Hfail).
  - intros t _. eexists. reflexivity.
  - intros t Hne. by rewrite bool_decide_eq_false_2.
  - exists r', lines'. split; [exact Hr'|]. split; [exact Hl'|].
    apply (Hfail 2 7); [|reflexivity|reflexivity|lia].
    apply list_elem_of_In. cbn. auto.
Defined.

Lemma schema_lines_witness :
  get_table_schema demo_source "audit"
  = Ok [mkColumn "note" "text" None "YES" None]
  ∧ verdict (schemas_body demo_source demo_partial) "audit" = false
  ∧ detail (schemas_body demo_source demo_partial) "audit"
    = "✗ audit: Schema mismatch - diff columns: {'note'}".
Proof.
  split; [reflexivity|]. split; [reflexivity|].
  destruct (schema_lines demo_source demo_partial "audit" _ eq_refl)
    as (_ & _ & Hline & _).
  rewrite Hline; reflexivity.
Defined.

Lemma existence_all_present_witness :
  get_tables (with_tables demo_source ["B"; "A"; "B"]) = Ok ["B"; "A"; "B"]
  ∧ get_tables (with_tables demo_source ["A"; "B"]) = Ok ["A"; "B"]
  ∧ ∃ r,
      validate_table_existence (with_tables demo_source ["B"; "A"; "B"])
        (with_tables demo_source ["A"; "B"]) []
      = Ok ([] ++ [r])
      ∧ message r = "All 2 tables present in both databases".
Proof.
  split; [reflexivity|]. split; [reflexivity|].
  destruct (existence_all_present
              (with_tables demo_source ["B"; "A"; "B"])
              (with_tables demo_source ["A"; "B"]) [] _ _ eq_refl eq_refl)
    as (r & Hr & _ & Hm & _).
  - intros t. rewrite !elem_of_cons, !elem_of_nil. tauto.
  - exists r. split; [exact Hr|]. rewrite Hm. reflexivity.
Defined.

Lemma terraform_values_replace_flags_witness :
  consults_terraform demo_args = true
  ∧ resolve_connection_info demo_args (TfParsed demo_outputs)
    = Ok (mkConnectionInfo (JStr "src.example") (JInt 6543)
            (JStr "ecommerce") (JStr "admin"),
          mkConnectionInfo (JStr "tgt.example") (JInt 5432)
            (JStr "ecommerce") (JStr "admin")).
Proof.
  split; [reflexivity|].
  apply (terraform_values_replace_flags demo_args demo_outputs
           [("connection_info",
             JDict [("source", JDict [("host", JStr "src.example");
                                      ("port", JInt 6543)]);
                    ("target", JDict [("host", JStr "tgt.example")])])]
           [("source", JDict [("host", JStr "src.example"); ("port", JInt 6543)]);
            ("target", JDict [("host", JStr "tgt.example")])]
           [("host", JStr "src.example"); ("port", JInt 6543)]
           [("host", JStr "tgt.example")]);
    [reflexivity|reflexivity|discriminate|reflexivity|reflexivity|reflexivity].
Defined.

Lemma terraform_answers_survived_witness :
  consults_terraform demo_args = true
  ∧ resolve_connection_info demo_args (TfOtherError "No such file: terraform")
    = Raise "No such file: terraform".
Proof.
  split; [reflexivity|].
  destruct (terraform_answers_survived demo_args
              (TfOtherError "No such file: terraform") eq_refl)
    as [_ Hother].
  by apply Hother.
Defined.

Lemma missing_sql_file_stops_before_connecting_witness :
  Populate.w_exists (demo_world false)
    (Populate.sql_file_path demo_populate_args (demo_world false)) = false
  ∧ Populate.status (Populate.main demo_populate_args (demo_world false)) = 1.
Proof.
  split; [reflexivity|].
  destruct (PopulateFacts.missing_sql_file_stops_before_connecting
              demo_populate_args (demo_world false) eq_refl) as [Hstatus _].
  exact Hstatus.
Defined.

Lemma counts_follow_a_completed_load_witness :
  Populate.Count "orders"
  ∈ Populate.events (Populate.main demo_populate_args (demo_world true))
  ∧ Populate.Execute "INSERT ..."
    ∈ Populate.events (Populate.main demo_populate_args (demo_world true)).
Proof.
  assert (Populate.Count "orders"
          ∈ Populate.events (Populate.main demo_populate_args (demo_world true)))
    as Hin.
  { apply list_elem_of_In. vm_compute. auto 20. }
  split; [exact Hin|].
  destruct (PopulateFacts.counts_follow_a_completed_load
              demo_populate_args (demo_world true) "orders" Hin)
    as (info & password & conn & sql & _ & _ & Hread & _ & Hexec).
  injection Hread as <-. exact Hexec.
Defined.

Lemma samples_decide_the_match_witness :
  q_primary_key demo_source "orders" = Ok ["id"]
  ∧ q_primary_key demo_partial "orders" = Ok ["id"]
  ∧ verdict (data_integrity_body demo_source demo_partial 10) "orders" = true.
Proof.
  split; [reflexivity|]. split; [reflexivity|].
  destruct (samples_decide_the_match demo_source demo_partial 10 "orders"
              ["id"] ["id"] _ _ eq_refl eq_refl eq_refl eq_refl)
    as [_ Hsame].
  apply Hsame. reflexivity.
Defined.

(** * Schema Structure and Constraints, on the result of the check *)

Section CheckResults.
Context `{RT : Runtime}.
Implicit Types (source_conn target_conn : Conn) (rs : list ValidationResult).
Implicit Types (ts : list string).

Lemma schemas_body_line source_conn target_conn (table : string) ss :
  get_table_schema source_conn table = Ok ss →
  let target_schema := match get_table_schema target_conn table with
                       | Ok s => s
                       | Raise _ => []
                       end in
  let names := λ s : list Column, (list_to_set (map col_name s) : gset string) in
  detail (schemas_body source_conn target_conn) table
  = if bool_decide (column_types ss = column_types target_schema)
    then check_mark +:+ " " +:+ table +:+ ": Schema matches ("
           +:+ pretty (size (names ss)) +:+ " columns)"
    else cross_mark +:+ " " +:+ table +:+ ": Schema mismatch - diff columns: "
           +:+ repr_set ((names ss ∖ names target_schema)
                         ∪ (names target_schema ∖ names ss)).
Proof.
  intros Hs target_schema names. unfold detail, schemas_body.
  rewrite Hs. cbn [mbind result_bind].
  assert (try_except (get_table_schema target_conn table) (λ _, Ok [])
          = Ok target_schema) as ->.
  { unfold target_schema. by destruct (get_table_schema target_conn table). }
  cbn [mbind result_bind]. unfold names.
  rewrite <- size_column_types, <- !dom_column_types.
  by destruct (bool_decide (column_types ss = column_types target_schema)).
Qed.

(** C7. Schema Structure, for source tables whose columns can be read.
    The check has one line per source table, a match line when the two
    name-to-type mappings of the table are equal and a mismatch line
    otherwise, and it passes exactly when the mappings are equal for every
    source table.  The mapping of a schema has the column names as its keys
    and gives each column its type.  Schemas that agree on names and types
    have equal mappings whatever their lengths, nullability and defaults;
    a column the target has and the source has not, or the source has and
    the target has not, a column under a new name and a column of another
    type each fail the check.  A target whose columns cannot be read, or
    that has none, has the empty mapping, and fails the check unless the
    source table has no columns either. *)
Theorem validate_schemas_compares_names_and_types
    source_conn target_conn rs ts (ss : string → list Column) :
  get_tables source_conn = Ok ts →
  (∀ t, t ∈ ts → get_table_schema source_conn t = Ok (ss t)) →
  let target_schema := λ t, match get_table_schema target_conn t with
                            | Ok s => s
                            | Raise _ => []
                            end in
  let names := λ s : list Column, (list_to_set (map col_name s) : gset string) in
  let line := λ t,
    if bool_decide (column_types (ss t) = column_types (target_schema t))
    then check_mark +:+ " " +:+ t +:+ ": Schema matches ("
           +:+ pretty (size (names (ss t))) +:+ " columns)"
    else cross_mark +:+ " " +:+ t +:+ ": Schema mismatch - diff columns: "
           +:+ repr_set ((names (ss t) ∖ names (target_schema t))
                         ∪ (names (target_schema t) ∖ names (ss t))) in
  ∃ r,
    validate_schemas source_conn target_conn rs = Ok (rs ++ [r])
    ∧ check_name r = "Schema Structure"
    ∧ source_value r = VList (map line ts)
    ∧ (passed r = true
       ↔ ∀ t, t ∈ ts → column_types (ss t) = column_types (target_schema t))
    ∧ message r = (if passed r then "All schemas match"
                   else "Schema differences detected")
    ∧ (∀ s, dom (column_types s) = names s)
    ∧ (∀ s c, NoDup (map col_name s) → c ∈ s →
              column_types s !! col_name c = Some (col_type c))
    ∧ (∀ s s', map name_and_type s = map name_and_type s' →
               column_types s = column_types s')
    ∧ ∀ t, t ∈ ts →
        (∀ s1 s2 c, ss t = s1 ++ s2 → target_schema t = s1 ++ c :: s2 →
           col_name c ∉ map col_name (ss t) → passed r = false)
        ∧ (∀ s1 s2 c, ss t = s1 ++ c :: s2 → target_schema t = s1 ++ s2 →
             col_name c ∉ map col_name (target_schema t) → passed r = false)
        ∧ (∀ s1 s2 c c', NoDup (map col_name (ss t)) →
             ss t = s1 ++ c :: s2 → target_schema t = s1 ++ c' :: s2 →
             col_name c' ≠ col_name c → passed r = false)
        ∧ (∀ s1 s2 c c', NoDup (map col_name (ss t)) →
             ss t = s1 ++ c :: s2 → target_schema t = s1 ++ c' :: s2 →
             col_name c' = col_name c → col_type c' ≠ col_type c →
             passed r = false)
        ∧ ((∃ e, get_table_schema target_conn t = Raise e)
           ∨ get_table_schema target_conn t = Ok [] →
           column_types (target_schema t) = ∅
           ∧ (ss t ≠ [] → passed r = false)).
Proof.
  intros Htables Hsrc target_schema names line.
  assert (Forall (one_line (schemas_body source_conn target_conn)) ts) as Hlines.
  { apply Forall_forall. intros t Ht.
    by apply (schemas_body_returns _ target_conn _ _ (Hsrc t Ht)). }
  assert (∀ t, t ∈ ts →
            verdict (schemas_body source_conn target_conn) t
            = bool_decide (column_types (ss t) = column_types (target_schema t)))
    as Hverdict.
  { intros t Ht.
    by destruct (schemas_body_returns _ target_conn _ _ (Hsrc t Ht)) as [_ ->]. }
  assert (forallb (verdict (schemas_body source_conn target_conn)) ts = true
          ↔ ∀ t, t ∈ ts → column_types (ss t) = column_types (target_schema t))
    as Hpassed.
  { rewrite forallb_elem_of. split; intros H t Ht.
    - specialize (H t Ht). rewrite (Hverdict t Ht) in H.
      by apply bool_decide_eq_true in H.
    - rewrite (Hverdict t Ht). apply bool_decide_eq_true. by apply H. }
  assert (∀ t, t ∈ ts →
            column_types (ss t) ≠ column_types (target_schema t) →
            forallb (verdict (schemas_body source_conn target_conn)) ts = false)
    as Hfails.
  { intros t Ht Hne. apply not_true_iff_false. rewrite Hpassed.
    intros H. by apply Hne, H. }
  eexists. split; [by apply validate_schemas_lines|].
  cbn [check_name source_value passed message].
  split; [done|]. split.
  { f_equal. apply map_ext_in. intros t Ht%list_elem_of_In.
    by rewrite (schemas_body_line _ target_conn _ _ (Hsrc t Ht)). }
  split; [done|]. split; [done|].
  split; [apply dom_column_types|].
  split; [intros s c; apply lookup_column_types|].
  split; [apply column_types_name_and_type|].
  intros t Ht.
  destruct (schemas_compare_names_and_types source_conn target_conn t (ss t)
              (Hsrc t Ht))
    as (_ & Hiff & _ & Hadded & Hmissing & Hrenamed & Hretyped & Habsent).
  assert (∀ b, verdict (schemas_body source_conn target_conn) t = b →
               b = false →
               forallb (verdict (schemas_body source_conn target_conn)) ts = false)
    as Hlift.
  { intros b Hb ->. apply (Hfails t Ht). intros Heq.
    rewrite (Hverdict t Ht) in Hb. by apply bool_decide_eq_false in Hb. }
  repeat split.
  - intros s1 s2 c H1 H2 Hc. eapply Hlift; [done|]. by eapply Hadded.
  - intros s1 s2 c H1 H2 Hc. eapply Hlift; [done|]. by eapply Hmissing.
  - intros s1 s2 c c' Hnd H1 H2 Hc. eapply Hlift; [done|]. by eapply Hrenamed.
  - intros s1 s2 c c' Hnd H1 H2 Hc Hty. eapply Hlift; [done|].
    by eapply Hretyped.
  - by apply Habsent.
  - intros Hne. apply (Hfails t Ht).
    destruct (Habsent H) as [Hempty _]. fold (target_schema t) in Hempty.
    rewrite Hempty. by rewrite column_types_nil_iff.
Qed.

Lemma spec_count_is_length (l : list Constraint) :
  length (primary_key_rows l) = spec_primary_key_row_count l.
Proof.
  unfold primary_key_rows. induction l as [|c l IH]; [done|].
  rewrite filter_cons. cbn [spec_primary_key_row_count].
  destruct (decide (con_type c = "PRIMARY KEY")) as [Heq|Hne].
  - rewrite Heq. cbn. by rewrite IH.
  - apply String.eqb_neq in Hne. rewrite Hne. by rewrite IH.
Qed.

Lemma spec_count_app (l1 l2 : list Constraint) :
  spec_primary_key_row_count (l1 ++ l2)
  = (spec_primary_key_row_count l1 + spec_primary_key_row_count l2)%nat.
Proof.
  induction l1 as [|c l1 IH]; [done|]. cbn. rewrite IH. lia.
Qed.

(** C8. Constraints, for source tables whose constraints can be read.  The
    check has one line per source table, saying whether source and target
    have the same number of PRIMARY KEY rows, and it passes exactly when
    they have for every source table.  The rows the check keeps are the
    rows of kind PRIMARY KEY, all of them: a row of that kind adds one to
    the count and a row of another kind adds nothing.  A target whose
    constraints cannot be read, or that has none, counts as an empty list:
    the table then matches only if the source has no PRIMARY KEY row. *)
Theorem validate_constraints_counts_primary_key_rows
    source_conn target_conn rs ts (sc : string → list Constraint) :
  get_tables source_conn = Ok ts →
  (∀ t, t ∈ ts → get_constraints source_conn t = Ok (sc t)) →
  let target_constraints := λ t, match get_constraints target_conn t with
                                 | Ok l => l
                                 | Raise _ => []
                                 end in
  let same := λ t, spec_primary_key_row_count (sc t)
                   = spec_primary_key_row_count (target_constraints t) in
  let line := λ t,
    if bool_decide (same t)
    then check_mark +:+ " " +:+ t +:+ ": Constraints present"
    else cross_mark +:+ " " +:+ t +:+ ": Primary key mismatch" in
  ∃ r,
    validate_constraints source_conn target_conn rs = Ok (rs ++ [r])
    ∧ check_name r = "Constraints"
    ∧ source_value r = VList (map line ts)
    ∧ (passed r = true ↔ ∀ t, t ∈ ts → same t)
    ∧ message r = (if passed r then "All constraints present"
                   else "Missing constraints detected")
    ∧ (∀ l, length (primary_key_rows l) = spec_primary_key_row_count l)
    ∧ (∀ l c, c ∈ primary_key_rows l ↔ c ∈ l ∧ con_type c = "PRIMARY KEY")
    ∧ (∀ l1 l2 c, con_type c = "PRIMARY KEY" →
         spec_primary_key_row_count (l1 ++ c :: l2)
         = S (spec_primary_key_row_count (l1 ++ l2)))
    ∧ (∀ l1 l2 c, con_type c ≠ "PRIMARY KEY" →
         spec_primary_key_row_count (l1 ++ c :: l2)
         = spec_primary_key_row_count (l1 ++ l2))
    ∧ ∀ t, t ∈ ts →
        (∃ e, get_constraints target_conn t = Raise e)
        ∨ get_constraints target_conn t = Ok [] →
        target_constraints t = []
        ∧ (same t ↔ spec_primary_key_row_count (sc t) = 0%nat)
        ∧ (spec_primary_key_row_count (sc t) ≠ 0%nat → passed r = false).
Proof.
  intros Htables Hsrc target_constraints same line.
  assert (Forall (one_line (constraints_body source_conn target_conn)) ts)
    as Hlines.
  { apply Forall_forall. intros t Ht.
    by apply (constraints_body_returns _ target_conn _ _ (Hsrc t Ht)). }
  assert (∀ t, t ∈ ts →
            verdict (constraints_body source_conn target_conn) t
            = bool_decide (same t)) as Hverdict.
  { intros t Ht.
    destruct (constraints_body_returns _ target_conn _ _ (Hsrc t Ht)) as [_ ->].
    unfold same, target_constraints. by rewrite !spec_count_is_length. }
  assert (∀ t, t ∈ ts →
            detail (constraints_body source_conn target_conn) t = line t)
    as Hdetail.
  { intros t Ht. unfold line, same, detail, constraints_body.
    rewrite (Hsrc t Ht). cbn [mbind result_bind].
    assert (try_except (get_constraints target_conn t) (λ _, Ok [])
            = Ok (target_constraints t)) as ->.
    { unfold target_constraints. by destruct (get_constraints target_conn t). }
    cbn [mbind result_bind]. rewrite !spec_count_is_length.
    by destruct (bool_decide _). }
  assert (forallb (verdict (constraints_body source_conn target_conn)) ts = true
          ↔ ∀ t, t ∈ ts → same t) as Hpassed.
  { rewrite forallb_elem_of. split; intros H t Ht.
    - specialize (H t Ht). rewrite (Hverdict t Ht) in H.
      by apply bool_decide_eq_true in H.
    - rewrite (Hverdict t Ht). apply bool_decide_eq_true. by apply H. }
  eexists. split; [by apply validate_constraints_lines|].
  cbn [check_name source_value passed message].
  split; [done|]. split.
  { f_equal. apply map_ext_in. intros t Ht%list_elem_of_In. by apply Hdetail. }
  split; [done|]. split; [done|].
  split; [apply spec_count_is_length|].
  split.
  { intros l c. unfold primary_key_rows. by rewrite list_elem_of_filter, (comm (∧)). }
  split.
  { intros l1 l2 c Hc. rewrite !spec_count_app. cbn. rewrite Hc. cbn. lia. }
  split.
  { intros l1 l2 c Hc. rewrite !spec_count_app. cbn.
    apply String.eqb_neq in Hc. rewrite Hc. lia. }
  intros t Ht Hempty.
  assert (target_constraints t = []) as Hnil.
  { unfold target_constraints. by destruct Hempty as [[e ->]| ->]. }
  split; [done|].
  assert (same t ↔ spec_primary_key_row_count (sc t) = 0%nat) as Hsame.
  { unfold same. by rewrite Hnil. }
  split; [done|].
  intros Hne. apply not_true_iff_false. rewrite Hpassed. intros H.
  by apply Hne, Hsame, H.
Qed.

End CheckResults.

(** * Two runs *)

Section TwoRuns.
Context `{RT : Runtime}.
Variable iter : gset string → list string.
Variable repr : gset string → string.
Implicit Types (source_conn target_conn : Conn) (rs : list ValidationResult).

Lemma append_empty (s : string) : s +:+ "" = s.
Proof.
  induction s as [|a s IH]; [done|].
  change (String a (s +:+ "") = String a s). by f_equal.
Qed.

Lemma agree_same name f R :
  one_result name f → (∀ r, R r r) → agree name f f R.
Proof.
  intros [[e He]|(r & Hn & Hr)] HR; [left|right].
  - by exists e.
  - exists r, r. by repeat split.
Qed.

Lemma agree_row_counts source_conn target_conn :
  agree "Row Counts" (validate_row_counts source_conn target_conn)
    (validate_row_counts (reconnect iter repr source_conn) (reconnect iter repr target_conn))
    (λ r r', message r' = message r).
Proof.
  change (validate_row_counts (reconnect iter repr source_conn) (reconnect iter repr target_conn))
    with (validate_row_counts source_conn target_conn).
  apply agree_same; [apply one_result_row_counts|done].
Qed.

Lemma agree_constraints source_conn target_conn :
  agree "Constraints" (validate_constraints source_conn target_conn)
    (validate_constraints (reconnect iter repr source_conn) (reconnect iter repr target_conn))
    (λ r r', message r' = message r).
Proof.
  change (validate_constraints (reconnect iter repr source_conn) (reconnect iter repr target_conn))
    with (validate_constraints source_conn target_conn).
  apply agree_same; [apply one_result_constraints|done].
Qed.

Lemma agree_data_integrity source_conn target_conn (sample_size : Z) :
  agree "Data Integrity"
    (validate_data_integrity source_conn target_conn sample_size)
    (validate_data_integrity (reconnect iter repr source_conn) (reconnect iter repr target_conn) sample_size)
    (λ r r', message r' = message r).
Proof.
  change (validate_data_integrity (reconnect iter repr source_conn) (reconnect iter repr target_conn)
            sample_size)
    with (validate_data_integrity source_conn target_conn sample_size).
  apply agree_same; [apply one_result_data_integrity|done].
Qed.

Lemma for_in_alike (body body' : LoopState → string → result LoopState)
    (ts : list string) :
  (∀ t all_match details details',
     loops_alike (body (all_match, details) t)
       (body' (all_match, details') t)) →
  ∀ all_match details details',
    loops_alike (for_in ts (all_match, details) body)
      (for_in ts (all_match, details') body').
Proof.
  intros Hbody. induction ts as [|t ts IH]; intros all_match details details'.
  - done.
  - cbn [for_in]. specialize (Hbody t all_match details details').
    destruct (body (all_match, details) t) as [[a d]|e],
             (body' (all_match, details') t) as [[a' d']|e'];
      cbn in Hbody; try done.
    subst a'. cbn [mbind result_bind]. apply IH.
Qed.

Lemma schemas_body_alike source_conn target_conn (t : string)
    (all_match : bool) (details details' : list string) :
  loops_alike (schemas_body source_conn target_conn (all_match, details) t)
    (schemas_body (reconnect iter repr source_conn) (reconnect iter repr target_conn)
       (all_match, details') t).
Proof.
  unfold schemas_body.
  change (get_table_schema (reconnect iter repr source_conn) t)
    with (get_table_schema source_conn t).
  change (get_table_schema (reconnect iter repr target_conn) t)
    with (get_table_schema target_conn t).
  destruct (get_table_schema source_conn t) as [ss|e];
    cbn [mbind result_bind]; [|done].
  destruct (try_except (get_table_schema target_conn t) (λ _, Ok []))
    as [tt|e]; cbn [mbind result_bind]; [|done].
  by destruct (bool_decide (column_types ss = column_types tt)).
Qed.

Lemma agree_schemas source_conn target_conn :
  agree "Schema Structure" (validate_schemas source_conn target_conn)
    (validate_schemas (reconnect iter repr source_conn) (reconnect iter repr target_conn))
    (λ r r', message r' = message r).
Proof.
  unfold agree, validate_schemas.
  change (get_tables (reconnect iter repr source_conn)) with (get_tables source_conn).
  destruct (get_tables source_conn) as [ts|e]; cbn [mbind result_bind].
  2: { left. by exists e. }
  pose proof (for_in_alike _ _ ts (schemas_body_alike source_conn target_conn)
                true [] []) as Halike.
  destruct (for_in ts (true, []) (schemas_body source_conn target_conn))
    as [[a d]|e],
    (for_in ts (true, [])
       (schemas_body (reconnect iter repr source_conn) (reconnect iter repr target_conn)))
    as [[a' d']|e']; cbn in Halike; try done.
  - subst a'. right. cbn [mbind result_bind]. do 2 eexists.
    split; [|split; [|split; [intros rs; reflexivity|
                              split; [intros rs; reflexivity|]]]]; done.
  - subst e'. left. by exists e.
Qed.

Lemma agree_table_existence source_conn target_conn :
  each_once set_iter → each_once iter →
  agree "Table Existence" (validate_table_existence source_conn target_conn)
    (validate_table_existence (reconnect iter repr source_conn) (reconnect iter repr target_conn))
    (λ r r',
       (∃ prefix names names',
          message r = prefix +:+ String.concat ", " names
          ∧ message r' = prefix +:+ String.concat ", " names'
          ∧ names ≡ₚ names'
          ∧ ∀ ls lt,
              get_tables source_conn = Ok ls →
              get_tables target_conn = Ok lt →
              missing_in_target (list_to_set ls) (list_to_set lt) ≠ ∅ →
              prefix = "Missing tables in target: "
              ∧ names ≡ₚ elements
                           (missing_in_target (list_to_set ls) (list_to_set lt)))
       ∧ ((∀ s, iter s = set_iter s) → message r' = message r)).
Proof.
  intros Hhere Hthere. unfold agree, validate_table_existence.
  change (get_tables (reconnect iter repr source_conn)) with (get_tables source_conn).
  change (get_tables (reconnect iter repr target_conn)) with (get_tables target_conn).
  destruct (get_tables source_conn) as [ls|e]; cbn [mbind result_bind].
  2: { left. by exists e. }
  destruct (get_tables target_conn) as [lt|e]; cbn [mbind result_bind].
  2: { left. by exists e. }
  right. do 2 eexists.
  split; [|split; [|split; [intros rs; reflexivity|
                            split; [intros rs; reflexivity|]]]]; try done.
  cbn [passed message]. split; [done|].
  unfold existence_message. cbn [set_iter reseed].
  set (missing := missing_in_target (list_to_set ls) (list_to_set lt)).
  set (extra := extra_in_target (list_to_set ls) (list_to_set lt)).
  split.
  - destruct (bool_decide (missing ≠ ∅)) eqn:Hm.
    { exists "Missing tables in target: ", (set_iter missing), (iter missing).
      split; [done|]. split; [done|].
      split; [by rewrite (Hhere missing), (Hthere missing)|].
      intros ls' lt' [= <-] [= <-] _. split; [done|]. apply Hhere. }
    apply bool_decide_eq_false in Hm.
    destruct (bool_decide (extra ≠ ∅)).
    { exists "Extra tables in target (OK): ", (set_iter extra), (iter extra).
      split; [done|]. split; [done|].
      split; [by rewrite (Hhere extra), (Hthere extra)|].
      intros ls' lt' [= <-] [= <-] Hne. by destruct Hm. }
    eexists _, [], []. cbn [String.concat]. rewrite append_empty.
    split; [done|]. split; [done|]. split; [done|].
    intros ls' lt' [= <-] [= <-] Hne. by destruct Hm.
  - intros Hsame. by rewrite !Hsame.
Qed.

Lemma agree_step name f f' R :
  agree name f f' R →
  ∃ r r',
    check_name r = name ∧ check_name r' = name
    ∧ (∀ rs, try_except (f rs) (λ e, Ok (rs ++ [error_result name e]))
             = Ok (rs ++ [r]))
    ∧ (∀ rs, try_except (f' rs) (λ e, Ok (rs ++ [error_result name e]))
             = Ok (rs ++ [r']))
    ∧ passed r' = passed r
    ∧ (R r r' ∨ (r' = r ∧ ∃ e, ∀ rs, f rs = Raise e)).
Proof.
  intros [(e & He & He')|(r & r' & Hn & Hn' & Hr & Hr' & Hp & HR)].
  - exists (error_result name e), (error_result name e).
    split; [done|]. split; [done|].
    split; [intros rs; by rewrite He|]. split; [intros rs; by rewrite He'|].
    split; [done|]. right. split; [done|]. by exists e.
  - exists r, r'. split; [done|]. split; [done|].
    split; [intros rs; by rewrite Hr|]. split; [intros rs; by rewrite Hr'|].
    split; [done|]. by left.
Qed.

(** C9, as the code has it.  Take two runs that get the same answers to
    their statements, in one process or in two.  Both return five results
    with the same names and the same [passed] flags; the messages of Row
    Counts, Schema Structure, Constraints and Data Integrity are the same;
    the two messages of Table Existence have the same beginning and list
    the same table names (the missing ones, after "Missing tables in
    target: ", when tables are missing), in an order that may differ; and
    they are the same when both runs iterate over sets in the same order,
    as two runs in one process do. *)
Theorem runs_agree_up_to_set_order source_conn target_conn rs rs' :
  each_once set_iter →
  each_once iter →
  ∃ r1 r2 r3 r4 r5 r1' r2' r3' r4' r5',
    run_all_validations source_conn target_conn rs
    = Ok (rs ++ [r1; r2; r3; r4; r5])
    ∧ run_all_validations (reconnect iter repr source_conn) (reconnect iter repr target_conn) rs'
      = Ok (rs' ++ [r1'; r2'; r3'; r4'; r5'])
    ∧ map check_name [r1'; r2'; r3'; r4'; r5']
      = map check_name [r1; r2; r3; r4; r5]
    ∧ map passed [r1'; r2'; r3'; r4'; r5'] = map passed [r1; r2; r3; r4; r5]
    ∧ map message [r2'; r3'; r4'; r5'] = map message [r2; r3; r4; r5]
    ∧ (∃ prefix names names',
         message r1 = prefix +:+ String.concat ", " names
         ∧ message r1' = prefix +:+ String.concat ", " names'
         ∧ names ≡ₚ names'
         ∧ ∀ ls lt,
             get_tables source_conn = Ok ls →
             get_tables target_conn = Ok lt →
             missing_in_target (list_to_set ls) (list_to_set lt) ≠ ∅ →
             prefix = "Missing tables in target: "
             ∧ names ≡ₚ elements
                          (missing_in_target (list_to_set ls) (list_to_set lt)))
    ∧ ((∀ s, iter s = set_iter s) → message r1' = message r1).
Proof.
  intros Hhere Hthere.
  destruct (agree_step _ _ _ _
              (agree_table_existence source_conn target_conn Hhere Hthere))
    as (r1 & r1' & N1 & N1' & S1 & S1' & P1 & M1).
  destruct (agree_step _ _ _ _ (agree_row_counts source_conn target_conn))
    as (r2 & r2' & N2 & N2' & S2 & S2' & P2 & M2).
  destruct (agree_step _ _ _ _ (agree_schemas source_conn target_conn))
    as (r3 & r3' & N3 & N3' & S3 & S3' & P3 & M3).
  destruct (agree_step _ _ _ _ (agree_constraints source_conn target_conn))
    as (r4 & r4' & N4 & N4' & S4 & S4' & P4 & M4).
  destruct (agree_step _ _ _ _
              (agree_data_integrity source_conn target_conn 1000))
    as (r5 & r5' & N5 & N5' & S5 & S5' & P5 & M5).
  exists r1, r2, r3, r4, r5, r1', r2', r3', r4', r5'.
  split.
  { unfold run_all_validations, validations. cbn [for_in].
    rewrite S1. cbn [mbind result_bind]. rewrite S2. cbn [mbind result_bind].
    rewrite S3. cbn [mbind result_bind]. rewrite S4. cbn [mbind result_bind].
    rewrite S5. cbn [mbind result_bind for_in]. by rewrite <- !app_assoc. }
  split.
  { unfold run_all_validations, validations. cbn [for_in].
    rewrite S1'. cbn [mbind result_bind]. rewrite S2'. cbn [mbind result_bind].
    rewrite S3'. cbn [mbind result_bind]. rewrite S4'. cbn [mbind result_bind].
    rewrite S5'. cbn [mbind result_bind for_in]. by rewrite <- !app_assoc. }
  split; [cbn; by rewrite N1, N2, N3, N4, N5, N1', N2', N3', N4', N5'|].
  split; [cbn; by rewrite P1, P2, P3, P4, P5|].
  split.
  { cbn. f_equal; [|f_equal; [|f_equal; [|f_equal]]].
    - by destruct M2 as [->|[-> _]].
    - by destruct M3 as [->|[-> _]].
    - by destruct M4 as [->|[-> _]].
    - by destruct M5 as [->|[-> _]]. }
  destruct M1 as [[Hlist Hsame]|[-> [e He]]]; [by split|].
  split; [|done].
  exists (message r1), [], []. cbn [String.concat]. rewrite append_empty.
  split; [done|]. split; [done|]. split; [done|].
  intros ls lt Hls Hlt Hne. exfalso.
  pose proof (validate_table_existence_ok source_conn target_conn [] ls lt
                Hls Hlt) as Hok.
  rewrite (He []) in Hok. discriminate.
Qed.

End TwoRuns.

(** * The revised statements at the examples *)

Lemma validate_schemas_compares_names_and_types_witness :
  get_tables demo_source = Ok ["audit"; "orders"]
  ∧ (∀ t, t ∈ ["audit"; "orders"] →
          get_table_schema demo_source t
          = Ok (match get_table_schema demo_source t with
                | Ok s => s
                | Raise _ => []
                end))
  ∧ ∃ r,
      validate_schemas demo_source demo_partial [] = Ok ([] ++ [r])
      ∧ passed r = false
      ∧ source_value r
        = VList ["✗ audit: Schema mismatch - diff columns: {'note'}";
                 "✓ orders: Schema matches (2 columns)"].
Proof.
  split; [reflexivity|]. split; [intros t _; reflexivity|].
  destruct (validate_schemas_compares_names_and_types
              demo_source demo_partial [] ["audit"; "orders"]
              (λ t, match get_table_schema demo_source t with
                    | Ok s => s
                    | Raise _ => []
                    end)
              eq_refl (λ t _, eq_refl))
    as (r & Hr & _ & Hlines & _ & _ & _ & _ & _ & Htables).
  exists r. split; [exact Hr|]. split.
  - destruct (Htables "audit") as (_ & _ & _ & _ & Habsent).
    { apply list_elem_of_In. cbn. auto. }
    destruct Habsent as [_ Hfails]; [right; reflexivity|].
    apply Hfails. discriminate.
  - rewrite Hlines. reflexivity.
Defined.

Lemma validate_constraints_counts_primary_key_rows_witness :
  get_tables demo_source = Ok ["audit"; "orders"]
  ∧ (∀ t, t ∈ ["audit"; "orders"] →
          get_constraints demo_source t
          = Ok (match get_constraints demo_source t with
                | Ok l => l
                | Raise _ => []
                end))
  ∧ ∃ r,
      validate_constraints demo_source demo_partial [] = Ok ([] ++ [r])
      ∧ passed r = true
      ∧ source_value r
        = VList ["✓ audit: Constraints present";
                 "✓ orders: Constraints present"].
Proof.
  split; [reflexivity|]. split; [intros t _; reflexivity|].
  destruct (validate_constraints_counts_primary_key_rows
              demo_source demo_partial [] ["audit"; "orders"]
              (λ t, match get_constraints demo_source t with
                    | Ok l => l
                    | Raise _ => []
                    end)
              eq_refl (λ t _, eq_refl))
    as (r & Hr & _ & Hlines & Hpassed & _).
  exists r. split; [exact Hr|]. split.
  - apply Hpassed. intros t Ht.
    apply elem_of_cons in Ht as [->|Ht]; [reflexivity|].
    apply elem_of_cons in Ht as [->|Ht]; [reflexivity|].
    by apply elem_of_nil in Ht.
  - rewrite Hlines. reflexivity.
Defined.

Lemma runs_agree_up_to_set_order_witness :
  each_once (@set_iter demo_runtime)
  ∧ each_once demo_reversed
  ∧ ∃ first second,
      run_all_validations demo_source (with_tables demo_source []) []
      = Ok ([] ++ first)
      ∧ run_all_validations
          (reconnect demo_reversed demo_reversed_repr demo_source)
          (reconnect demo_reversed demo_reversed_repr
             (with_tables demo_source [])) []
        = Ok ([] ++ second)
      ∧ map passed second = map passed first.
Proof.
  assert (each_once (@set_iter demo_runtime)) as Hhere.
  { intros s. reflexivity. }
  assert (each_once demo_reversed) as Hthere.
  { intros s. apply reverse_Permutation. }
  split; [exact Hhere|]. split; [exact Hthere|].
  destruct (runs_agree_up_to_set_order (RT:=demo_runtime)
              demo_reversed demo_reversed_repr
              demo_source (with_tables demo_source []) [] [] Hhere Hthere)
    as (r1 & r2 & r3 & r4 & r5 & r1' & r2' & r3' & r4' & r5'
        & Hrun & Hrun' & _ & Hpassed & _).
  exists [r1; r2; r3; r4; r5], [r1'; r2'; r3'; r4'; r5'].
  split; [exact Hrun|]. split; [exact Hrun'|exact Hpassed].
Defined.

(** C9 as stated fails.  Two runs get the same answers, each in a process
    of its own that iterates over sets in its own order: the two messages
    of Table Existence list the missing tables in different orders. *)
Lemma set_order_changes_the_message :
  (rs ← run_all_validations demo_source (with_tables demo_source []) [];
   Ok (map message rs))
  = Ok ["Missing tables in target: orders, audit"; "All row counts match";
        "All schemas match"; "All constraints present";
        "Data integrity verified"]
  ∧ (rs ← run_all_validations
            (reconnect demo_reversed demo_reversed_repr demo_source)
            (reconnect demo_reversed demo_reversed_repr
               (with_tables demo_source [])) [];
     Ok (map message rs))
    = Ok ["Missing tables in target: audit, orders"; "All row counts match";
          "All schemas match"; "All constraints present";
          "Data integrity verified"]
  ∧ (rs ← run_all_validations demo_source (with_tables demo_source []) [];
     Ok (map message rs))
    ≠ (rs ← run_all_validations
              (reconnect demo_reversed demo_reversed_repr demo_source)
              (reconnect demo_reversed demo_reversed_repr
                 (with_tables demo_source [])) [];
       Ok (map message rs)).
Proof.
  split; [reflexivity|]. split; [reflexivity|].
  intros H. vm_compute in H. discriminate H.
Qed.
